(** * torchpack: the training loop and its monitors

    A shallow embedding of [torchpack/train/trainer.py] and
    [torchpack/callbacks/monitor.py].  Python objects become records,
    dictionaries become [gmap]s, exceptions become the [Raise] branch of
    [result], and the hooks a trainer fires are recorded in a trace. *)

From Stdlib Require Import ZArith List Bool Lia.
From Stdlib Require Import Floats.SpecFloat.
From stdpp Require Import gmap strings list fin_maps sorting.

(** ** Python exceptions and results *)

(** The exceptions the two files can raise or let through. *)
Inductive exn :=
| AssertionError | AttributeError | IndexError | KeyError | TypeError
| ValueError | OverflowError | ZeroDivisionError | IOError
| NotImplementedError | StopTraining | RuntimeError.

#[global] Instance exn_eq_dec : EqDecision exn.
Proof. solve_decision. Defined.

(** A call either returns a value or raises. *)
Inductive result (A : Type) : Type :=
| Ok (a : A)
| Raise (e : exn).
Arguments Ok {A} a.
Arguments Raise {A} e.

Definition raised {A} (r : result A) : option exn :=
  match r with Ok _ => None | Raise e => Some e end.

(** ** Python values *)

(** A Python [float] is an IEEE binary64 number. *)
Definition float64 : Type := spec_float.

(** The float nearest to an integer (ties to even); infinite when the
    integer is out of range. *)
Definition float_of_Z (z : Z) : float64 := binary_normalize 53 1024 z 0 false.

Definition float_add (x y : float64) : float64 := SFadd 53 1024 x y.

(** [f == z] for a float and an int: Python compares the exact values. *)
Definition float_eq_Z (f : float64) (z : Z) : bool :=
  match f with
  | S754_zero _ => (z =? 0)%Z
  | S754_finite s m e =>
      let v := (if s then - Z.pos m else Z.pos m)%Z in
      if (0 <=? e)%Z then (v * 2 ^ e =? z)%Z else (v =? z * 2 ^ (- e))%Z
  | S754_infinity _ | S754_nan => false
  end.

Set Warnings "-register-all".

(** Plain Python data, as [json.load] returns it and [json.dump] accepts
    it: [None], [bool], [int], [float], [str], [list], and [dict] with
    string keys. *)
Inductive json :=
| JNull
| JBool (b : bool)
| JInt (z : Z)
| JFloat (f : float64)
| JStr (s : string)
| JList (l : list json)
| JDict (d : gmap string json).

(** A numpy array: its shape and its elements in row-major order, each by
    its value as a float.  [ndim] is the length of the shape. *)
Record ndarray := {
  shape : list nat;
  data : list float64
}.

(** The values a caller may pass as a metric or an image: plain Python
    data, numpy integer and floating scalars, and numpy arrays. *)
Inductive pyval :=
| Py (j : json)
| NpInteger (z : Z)
| NpFloating (f : float64)
| NdArray (a : ndarray).

Section Builtins.

(** [float(s)] for a string [s]: Python's parser of float literals, which
    is no part of the two files. *)
Variable float_of_str : string -> result float64.

(** [float(z)] for an int: [OverflowError] when [z] is too large. *)
Definition float_of_int (z : Z) : result float64 :=
  match float_of_Z z with
  | S754_infinity _ => Raise OverflowError
  | f => Ok f
  end.

(** The builtin [float(val)]. *)
Definition py_float (val : pyval) : result float64 :=
  match val with
  | Py (JBool b) => Ok (float_of_Z (if b then 1 else 0))
  | Py (JInt z) | NpInteger z => float_of_int z
  | Py (JFloat f) | NpFloating f => Ok f
  | Py (JStr s) => float_of_str s
  | Py JNull | Py (JList _) | Py (JDict _) => Raise TypeError
  | NdArray a =>
      match data a with
      | [x] => Ok x
      | _ => Raise TypeError
      end
  end.

End Builtins.

(** [v + k] for plain data [v] and an int [k]. *)
Definition json_add (v : json) (k : Z) : result json :=
  match v with
  | JBool b => Ok (JInt ((if b then 1 else 0) + k))
  | JInt z => Ok (JInt (z + k))
  | JFloat f => Ok (JFloat (float_add f (float_of_Z k)))
  | JNull | JStr _ | JList _ | JDict _ => Raise TypeError
  end.

(** [v == z] for plain data [v] and an int [z]. *)
Definition json_eq_Z (v : json) (z : Z) : bool :=
  match v with
  | JBool b => ((if b then 1 else 0) =? z)%Z
  | JInt x => (x =? z)%Z
  | JFloat f => float_eq_Z f z
  | JNull | JStr _ | JList _ | JDict _ => false
  end.

(** [v[key]] for plain data [v] and a string [key]. *)
Definition json_getitem (v : json) (key : string) : result json :=
  match v with
  | JDict d =>
      match d !! key with
      | Some x => Ok x
      | None => Raise KeyError
      end
  | _ => Raise TypeError
  end.

(** ** The trainer ([torchpack/train/trainer.py]) *)

Module Trainer.

(** The attributes of a [Trainer] object that the loop and the monitors
    read.  [train] assigns [epoch_num], [global_step], [steps_per_epoch]
    and [num_epochs]; [local_step] is first assigned when an epoch starts,
    and the class never assigns [starting_epoch] (a subclass may): an
    attribute that does not exist is [None]. *)
Record t := mk {
  epoch_num : Z;
  local_step : option Z;
  global_step : Z;
  steps_per_epoch : Z;
  num_epochs : Z;
  starting_epoch : option Z
}.

Definition with_epoch_num (v : Z) (s : t) : t :=
  mk v (local_step s) (global_step s) (steps_per_epoch s) (num_epochs s) (starting_epoch s).
Definition with_local_step (v : Z) (s : t) : t :=
  mk (epoch_num s) (Some v) (global_step s) (steps_per_epoch s) (num_epochs s) (starting_epoch s).
Definition with_global_step (v : Z) (s : t) : t :=
  mk (epoch_num s) (local_step s) v (steps_per_epoch s) (num_epochs s) (starting_epoch s).
Definition with_steps_per_epoch (v : Z) (s : t) : t :=
  mk (epoch_num s) (local_step s) (global_step s) v (num_epochs s) (starting_epoch s).
Definition with_num_epochs (v : Z) (s : t) : t :=
  mk (epoch_num s) (local_step s) (global_step s) (steps_per_epoch s) v (starting_epoch s).

(** What [train] needs of the [dataflow] argument: [len(dataflow)], which
    raises for an iterable without a length and otherwise is the number of
    batches a pass over the dataflow yields, and whether it is a
    [DataLoader] whose sampler is a [DistributedSampler]. *)
Record DataLoader := {
  len : result nat;
  distributed_sampler : bool
}.

(** Every call the loop makes into code it does not own: the trainer's own
    overridable [_hook] methods, the hooks of [self.callbacks], the
    summaries' [set_trainer] and the sampler's [set_epoch]. *)
Inductive site :=
| callbacks_set_trainer
| summary_set_trainer (split : string)
| _before_train | callbacks_before_train
| sampler_set_epoch | _before_epoch | callbacks_before_epoch
| _before_step | callbacks_before_step
| _run_step
| callbacks_after_step | _after_step
| callbacks_trigger_step | _trigger_step
| callbacks_after_epoch | _after_epoch
| callbacks_trigger_epoch | _trigger_epoch
| callbacks_after_train | _after_train.

#[global] Instance site_eq_dec : EqDecision site.
Proof. solve_decision. Defined.

(** The trace of a run: each call with the trainer's attributes at the time
    and the exception it raised, if any; and the [except StopTraining]
    clause logging that it caught the signal. *)
Inductive event :=
| Called (s : site) (self : t) (exc : option exn)
| Caught (e : exn).

(** The keys of [{s: Summary(split=s) for s in splits}]: each split once,
    in the order of its first occurrence. *)
Fixpoint dict_keys (seen : list string) (splits : list string) : list string :=
  match splits with
  | [] => []
  | s :: rest =>
      if bool_decide (s ∈ seen) then dict_keys seen rest
      else s :: dict_keys (s :: seen) rest
  end.

Section Loop.

(** [W] is the state of everything the hooks act on (callbacks, monitors,
    files); [hooks] is what each call does to it. *)
Context {W : Type}.
Variable hooks : site -> t -> W -> result unit * W.

Record run := {
  self : t;
  world : W;
  trace : list event
}.

(** State and exceptions threaded through the loop. *)
Definition M (A : Type) : Type := run -> result A * run.

#[global] Instance M_ret : MRet M := fun A a σ => (Ok a, σ).
#[global] Instance M_bind : MBind M := fun A B f m σ =>
  match m σ with
  | (Ok a, σ') => f a σ'
  | (Raise e, σ') => (Raise e, σ')
  end.

Definition raise {A} (e : exn) : M A := fun σ => (Raise e, σ).

Definition assign (f : t -> t) : M unit := fun σ =>
  (Ok tt, {| self := f (self σ); world := world σ; trace := trace σ |}).

Definition read {A} (f : t -> A) : M A := fun σ => (Ok (f (self σ)), σ).

Definition call (s : site) : M unit := fun σ =>
  let '(r, w) := hooks s (self σ) (world σ) in
  (r, {| self := self σ; world := w;
         trace := trace σ ++ [Called s (self σ) (raised r)] |}).

Definition log_caught (e : exn) : run -> run := fun σ =>
  {| self := self σ; world := world σ; trace := trace σ ++ [Caught e] |}.

Fixpoint for_each {A} (f : A -> M unit) (l : list A) : M unit :=
  match l with
  | [] => mret tt
  | a :: rest => f a ;; for_each f rest
  end.

(** [self.local_step += 1] *)
Definition incr_local_step : M unit :=
  o ← read local_step;
  match o with
  | Some k => assign (with_local_step (k + 1))
  | None => raise AttributeError
  end.

Definition before_train : M unit :=
  call _before_train ;; call callbacks_before_train.

Definition before_epoch (dataflow : DataLoader) : M unit :=
  (if distributed_sampler dataflow then call sampler_set_epoch else mret tt) ;;
  call _before_epoch ;;
  call callbacks_before_epoch.

Definition before_step : M unit :=
  call _before_step ;; call callbacks_before_step.

Definition run_step : M unit := call _run_step.

Definition after_step : M unit :=
  call callbacks_after_step ;; call _after_step.

Definition trigger_step : M unit :=
  call callbacks_trigger_step ;; call _trigger_step.

Definition after_epoch : M unit :=
  call callbacks_after_epoch ;; call _after_epoch.

Definition trigger_epoch : M unit :=
  call callbacks_trigger_epoch ;; call _trigger_epoch.

Definition after_train : M unit :=
  call callbacks_after_train ;; call _after_train.

(** One iteration of [for feed_dict in self.dataflow]. *)
Definition step : M unit :=
  incr_local_step ;;
  g ← read global_step; assign (with_global_step (g + 1)) ;;
  before_step ;;
  run_step ;;
  after_step ;;
  trigger_step.

Fixpoint for_dataflow (batches : nat) : M unit :=
  match batches with
  | O => mret tt
  | S rest => step ;; for_dataflow rest
  end.

(** The body of [while self.epoch_num < self.num_epochs]. *)
Definition epoch (dataflow : DataLoader) (batches : nat) (eval_interval : option Z) : M unit :=
  e ← read epoch_num; assign (with_epoch_num (e + 1)) ;;
  assign (with_local_step 0) ;;
  before_epoch dataflow ;;
  for_dataflow batches ;;
  after_epoch ;;
  match eval_interval with
  | Some k =>
      e ← read epoch_num;
      if (k =? 0)%Z then raise ZeroDivisionError
      else if (e `mod` k =? 0)%Z then trigger_epoch else mret tt
  | None => trigger_epoch
  end.

(** The [while] loop, with fuel: [None] when the fuel runs out with the
    condition still true. *)
Fixpoint while_epochs (fuel : nat) (dataflow : DataLoader) (batches : nat)
    (eval_interval : option Z) (σ : run) : option (result unit * run) :=
  if (epoch_num (self σ) <? num_epochs (self σ))%Z then
    match fuel with
    | O => None
    | S fuel' =>
        match epoch dataflow batches eval_interval σ with
        | (Ok _, σ') => while_epochs fuel' dataflow batches eval_interval σ'
        | (Raise e, σ') => Some (Raise e, σ')
        end
    end
  else Some (Ok tt, σ).

(** The statements of the [try] block before the loop. *)
Definition prologue (summary : list string) : M unit :=
  call callbacks_set_trainer ;;
  for_each (fun s => call (summary_set_trainer s)) summary ;;
  assign (with_epoch_num 0) ;;
  assign (with_global_step 0) ;;
  before_train.

Definition try_block (fuel : nat) (dataflow : DataLoader) (batches : nat)
    (eval_interval : option Z) (summary : list string) (σ : run)
    : option (result unit * run) :=
  match prologue summary σ with
  | (Ok _, σ') => while_epochs fuel dataflow batches eval_interval σ'
  | (Raise e, σ') => Some (Raise e, σ')
  end.

(** [except StopTraining as e: logger.info(...)] and [finally:
    self.after_train()], applied to the outcome of the [try] block.  An
    exception raised in the [finally] clause replaces the pending one. *)
Definition except_finally (r : result unit) (σ : run) : result unit * run :=
  let '(r1, σ1) :=
    match r with
    | Raise StopTraining => (Ok tt, log_caught StopTraining σ)
    | _ => (r, σ)
    end in
  match after_train σ1 with
  | (Ok _, σ2) => (r1, σ2)
  | (Raise e, σ2) => (Raise e, σ2)
  end.

(** [Trainer.train].  The statements before [try] can fail only in
    [len(self.dataflow)]; the loop gets [num_epochs] units of fuel. *)
Definition train (self0 : t) (dataflow : DataLoader) (num_epochs : Z)
    (eval_interval : option Z) (splits : option (list string)) (w : W)
    : option (result unit * run) :=
  match len dataflow with
  | Raise e => Some (Raise e, {| self := self0; world := w; trace := [] |})
  | Ok n =>
      let self1 := with_num_epochs num_epochs (with_steps_per_epoch (Z.of_nat n) self0) in
      let summary := match splits with None => ["0"] | Some ss => dict_keys [] ss end in
      match try_block (Z.to_nat num_epochs) dataflow n eval_interval summary
              {| self := self1; world := w; trace := [] |} with
      | Some (r, σ) => Some (except_finally r σ)
      | None => None
      end
  end.

End Loop.

Section StateDict.

(** The values of a state dict, and of the trainer's attributes they are
    assigned to, are any Python objects. *)
Context {V : Type}.

(** [self.callbacks.load_state_dict(state)], of the class [Callbacks],
    which is not among the sources: what it does to the callbacks object. *)
Variable callbacks_load_state_dict : V -> V -> result unit * V.

(** [d.pop(key)] on the dictionary the caller passed: the dictionary
    after the call is returned with the result. *)
Definition pop (key : string) (d : gmap string V) : result V * gmap string V :=
  match d !! key with
  | Some v => (Ok v, delete key d)
  | None => (Raise KeyError, d)
  end.

(** [Trainer.load_state_dict].  The attributes are assigned whatever the
    dictionary holds, so [self] is here the trainer's attribute dictionary;
    the caller's dictionary after the call is returned beside it.
    [self._load_state_dict] is [pass]. *)
Definition load_state_dict (self : gmap string V) (state_dict : gmap string V)
    : result unit * (gmap string V * gmap string V) :=
  match pop "epoch_num" state_dict with
  | (Raise x, state_dict) => (Raise x, (self, state_dict))
  | (Ok v, state_dict) =>
      let self := <["epoch_num" := v]> self in
      match pop "local_step" state_dict with
      | (Raise x, state_dict) => (Raise x, (self, state_dict))
      | (Ok v, state_dict) =>
          let self := <["local_step" := v]> self in
          match pop "global_step" state_dict with
          | (Raise x, state_dict) => (Raise x, (self, state_dict))
          | (Ok v, state_dict) =>
              let self := <["global_step" := v]> self in
              match self !! "callbacks" with
              | None => (Raise AttributeError, (self, state_dict))
              | Some callbacks =>
                  match pop "callbacks" state_dict with
                  | (Raise x, state_dict) => (Raise x, (self, state_dict))
                  | (Ok v, state_dict) =>
                      let '(r, callbacks) := callbacks_load_state_dict callbacks v in
                      (r, (<["callbacks" := callbacks]> self, state_dict))
                  end
              end
          end
      end
  end.

End StateDict.

Section SaveState.

Context {V : Type}.

(** [self.callbacks.state_dict()], of the class [Callbacks], which is not
    among the sources: the state it returns and what it does to the
    callbacks object. *)
Variable callbacks_state_dict : V -> result V * V.

(** [Trainer.state_dict], on the trainer's attribute dictionary.
    [self._state_dict()] is [dict()]. *)
Definition state_dict (self : gmap string V) : result (gmap string V) * gmap string V :=
  let state_dict : gmap string V := ∅ in
  match self !! "callbacks" with
  | None => (Raise AttributeError, self)
  | Some callbacks =>
      match callbacks_state_dict callbacks with
      | (Raise x, callbacks) => (Raise x, <["callbacks" := callbacks]> self)
      | (Ok state, callbacks) =>
          let self := <["callbacks" := callbacks]> self in
          let state_dict := <["callbacks" := state]> state_dict in
          match self !! "epoch_num" with
          | None => (Raise AttributeError, self)
          | Some v =>
              let state_dict := <["epoch_num" := v]> state_dict in
              match self !! "local_step" with
              | None => (Raise AttributeError, self)
              | Some v =>
                  let state_dict := <["local_step" := v]> state_dict in
                  match self !! "global_step" with
                  | None => (Raise AttributeError, self)
                  | Some v => (Ok (<["global_step" := v]> state_dict), self)
                  end
              end
          end
      end
  end.

End SaveState.

End Trainer.

(** ** Facts about the training loop *)

Module TrainerFacts.
Import Trainer.

(** The calls made inside the [try] block: every site but the two of
    [after_train], which runs in the [finally] clause. *)
Definition guarded (s : site) : bool :=
  match s with
  | callbacks_after_train | _after_train => false
  | _ => true
  end.

Definition is_after_train (ev : event) : bool :=
  match ev with
  | Called callbacks_after_train _ _ => true
  | _ => false
  end.

Definition is_caught (ev : event) : bool :=
  match ev with
  | Caught _ => true
  | _ => false
  end.

(** How often an event of a kind occurs in a trace. *)
Definition occurrences (p : event -> bool) (tr : list event) : nat :=
  length (List.filter p tr).

(** A call made inside the [try] block that returned. *)
Definition quiet (ev : event) : Prop :=
  exists s t, ev = Called s t None /\ guarded s = true.

(** A call made inside the [try] block that raised [e]. *)
Definition loud (e : exn) (ev : event) : Prop :=
  exists s t, ev = Called s t (Some e) /\ guarded s = true.

(** The events a piece of the [try] block adds to the trace: calls that
    returned, then at most one call that raised, which ends the piece with
    that exception. *)
Definition block_trace (new : list event) (exc : option exn) : Prop :=
  Forall quiet new \/
  exists new' ev e, new = new' ++ [ev] /\ Forall quiet new' /\ loud e ev /\ exc = Some e.

(** The events of [self.after_train()]. *)
Definition after_train_trace (new : list event) (exc : option exn) : Prop :=
  exists t,
    (exists e, new = [Called callbacks_after_train t (Some e)] /\ exc = Some e) \/
    new = [Called callbacks_after_train t None; Called _after_train t exc].

Lemma occurrences_app p l1 l2 :
  occurrences p (l1 ++ l2) = occurrences p l1 + occurrences p l2.
Proof. unfold occurrences. by rewrite List.filter_app, length_app. Qed.

Lemma quiet_not p :
  (forall s t o, guarded s = true -> p (Called s t o) = false) ->
  forall l, Forall quiet l -> occurrences p l = 0.
Proof.
  intros Hp l Hl. induction Hl as [|ev l [s [t [-> Hs]]] _ IH]; [done|].
  unfold occurrences in *. simpl. by rewrite (Hp s t None Hs).
Qed.

Lemma block_trace_occurrences p new exc :
  (forall s t o, guarded s = true -> p (Called s t o) = false) ->
  block_trace new exc -> occurrences p new = 0.
Proof.
  intros Hp [Hq | (new' & ev & e & -> & Hq & (s & t & -> & Hs) & _)].
  - by apply quiet_not.
  - rewrite occurrences_app, (quiet_not p Hp new' Hq).
    unfold occurrences. simpl. by rewrite (Hp s t _ Hs).
Qed.

Lemma block_trace_returned new : block_trace new None -> Forall quiet new.
Proof. by intros [Hq | (? & ? & ? & _ & _ & _ & ?)]. Qed.

Lemma block_trace_app new1 new2 exc :
  Forall quiet new1 -> block_trace new2 exc -> block_trace (new1 ++ new2) exc.
Proof.
  intros H1 [H2 | (new' & ev & e & -> & Hq & Hl & ->)].
  - left. by apply Forall_app.
  - right. exists (new1 ++ new'), ev, e. rewrite app_assoc.
    split_and!; [done | by apply Forall_app | done | done].
Qed.

(** A trace splits around a distinguished element in one way only. *)
Lemma split_unique {A} (P : A -> Prop) (l1 l2 l1' l2' : list A) (x x' : A) :
  l1 ++ x :: l2 = l1' ++ x' :: l2' ->
  P x -> Forall (fun y => ~ P y) l1' -> Forall (fun y => ~ P y) l2' ->
  l1 = l1' /\ x = x' /\ l2 = l2'.
Proof.
  revert l1'. induction l1 as [|a l1 IH]; intros [|a' l1'] Heq Hx H1 H2;
    simpl in Heq; injection Heq as -> Heq.
  - done.
  - by inversion H1.
  - exfalso. subst l2'. apply Forall_app in H2 as [_ H2]. by inversion H2.
  - inversion H1; subst. by destruct (IH l1' Heq Hx) as (-> & -> & ->).
Qed.

Section LoopFacts.
Context {W : Type}.
Variable hooks : site -> t -> W -> result unit * W.

Abbreviation M := (@M W).
Abbreviation run := (@run W).

Lemma bind_unfold {A B} (m : M A) (f : A -> M B) (σ : run) :
  (m ≫= f) σ =
  match m σ with
  | (Ok a, σ') => f a σ'
  | (Raise e, σ') => (Raise e, σ')
  end.
Proof. reflexivity. Qed.

(** *** What a piece of the [try] block adds to the trace *)

Definition sound {A} (m : M A) : Prop :=
  forall σ r σ', m σ = (r, σ') ->
    exists new, trace σ' = trace σ ++ new /\ block_trace new (raised r).

Lemma sound_ret {A} (a : A) : sound (mret a : M A).
Proof.
  intros σ r σ' [= <- <-]. exists []. rewrite app_nil_r. split; [done|]. by left.
Qed.

Lemma sound_raise {A} e : sound (raise e : M A).
Proof.
  intros σ r σ' [= <- <-]. exists []. rewrite app_nil_r. split; [done|]. by left.
Qed.

Lemma sound_assign f : sound (assign f : M unit).
Proof.
  intros σ r σ' [= <- <-]. exists []. rewrite app_nil_r. split; [done|]. by left.
Qed.

Lemma sound_read {A} (f : t -> A) : sound (read f : M A).
Proof.
  intros σ r σ' [= <- <-]. exists []. rewrite app_nil_r. split; [done|]. by left.
Qed.

Lemma sound_call s : guarded s = true -> sound (call hooks s).
Proof.
  intros Hs σ r σ'. unfold call.
  destruct (hooks s (self σ) (world σ)) as [r0 w] eqn:E. intros [= <- <-]. simpl.
  eexists. split; [done|]. destruct r0 as [[]|e]; simpl.
  - left. constructor; [|done]. by exists s, (self σ).
  - right. exists [], (Called s (self σ) (Some e)), e.
    split_and!; [done | done | by exists s, (self σ) | done].
Qed.

Lemma sound_bind {A B} (m : M A) (f : A -> M B) :
  sound m -> (forall a, sound (f a)) -> sound (m ≫= f).
Proof.
  intros Hm Hf σ r σ'. rewrite bind_unfold.
  destruct (m σ) as [[a|e] σ1] eqn:E; intros Hr.
  - destruct (Hm _ _ _ E) as (new1 & Ht1 & Hb1).
    destruct (Hf a _ _ _ Hr) as (new2 & Ht2 & Hb2).
    exists (new1 ++ new2). rewrite Ht2, Ht1, app_assoc. split; [done|].
    apply block_trace_app; [|done]. by apply block_trace_returned.
  - injection Hr as <- <-. exact (Hm _ _ _ E).
Qed.

Lemma sound_for_each {A} (f : A -> M unit) l :
  (forall a, sound (f a)) -> sound (for_each f l).
Proof.
  intros Hf. induction l as [|a l IH]; simpl.
  - apply sound_ret.
  - apply sound_bind; [apply Hf | intros _; apply IH].
Qed.

Ltac sound :=
  repeat first
    [ apply sound_ret | apply sound_raise | apply sound_assign | apply sound_read
    | apply sound_call; reflexivity
    | apply sound_bind; [|intros ?]
    | match goal with |- sound (if ?b then _ else _) => destruct b end
    | match goal with |- sound (match ?o with _ => _ end) => destruct o end ].

Lemma sound_step : sound (step hooks).
Proof. unfold step, incr_local_step, before_step, run_step, after_step, trigger_step. sound. Qed.

Lemma sound_for_dataflow n : sound (for_dataflow hooks n).
Proof.
  induction n as [|n IH]; simpl; [apply sound_ret|].
  apply sound_bind; [apply sound_step | intros _; apply IH].
Qed.

Lemma sound_epoch df n ei : sound (epoch hooks df n ei).
Proof.
  unfold epoch, before_epoch, after_epoch, trigger_epoch.
  repeat first [ apply sound_for_dataflow | progress sound ].
Qed.

Lemma sound_prologue summary : sound (prologue hooks summary).
Proof.
  unfold prologue, before_train.
  repeat first [ apply sound_for_each; intros ? | progress sound ].
Qed.

(** *** The loop counters *)

(** A computation that leaves [epoch_num] and [num_epochs] alone. *)
Definition steady {A} (m : M A) : Prop :=
  forall σ r σ', m σ = (r, σ') ->
    epoch_num (self σ') = epoch_num (self σ) /\
    num_epochs (self σ') = num_epochs (self σ).

Lemma steady_ret {A} (a : A) : steady (mret a : M A).
Proof. by intros σ r σ' [= <- <-]. Qed.

Lemma steady_raise {A} e : steady (raise e : M A).
Proof. by intros σ r σ' [= <- <-]. Qed.

Lemma steady_read {A} (f : t -> A) : steady (read f : M A).
Proof. by intros σ r σ' [= <- <-]. Qed.

Lemma steady_local_step v : steady (assign (with_local_step v) : M unit).
Proof. by intros σ r σ' [= <- <-]. Qed.

Lemma steady_global_step v : steady (assign (with_global_step v) : M unit).
Proof. by intros σ r σ' [= <- <-]. Qed.

Lemma steady_call s : steady (call hooks s).
Proof.
  intros σ r σ'. unfold call.
  destruct (hooks s (self σ) (world σ)) as [r0 w]. by intros [= <- <-].
Qed.

Lemma steady_bind {A B} (m : M A) (f : A -> M B) :
  steady m -> (forall a, steady (f a)) -> steady (m ≫= f).
Proof.
  intros Hm Hf σ r σ'. rewrite bind_unfold.
  destruct (m σ) as [[a|e] σ1] eqn:E; intros Hr.
  - destruct (Hm _ _ _ E) as [<- <-]. exact (Hf a _ _ _ Hr).
  - injection Hr as <- <-. exact (Hm _ _ _ E).
Qed.

Ltac steady :=
  repeat first
    [ apply steady_ret | apply steady_raise | apply steady_read
    | apply steady_local_step | apply steady_global_step | apply steady_call
    | apply steady_bind; [|intros ?]
    | match goal with |- steady (if ?b then _ else _) => destruct b end
    | match goal with |- steady (match ?o with _ => _ end) => destruct o end ].

Lemma steady_step : steady (step hooks).
Proof. unfold step, incr_local_step, before_step, run_step, after_step, trigger_step. steady. Qed.

Lemma steady_for_dataflow n : steady (for_dataflow hooks n).
Proof.
  induction n as [|n IH]; simpl; [apply steady_ret|].
  apply steady_bind; [apply steady_step | intros _; apply IH].
Qed.

(** An epoch advances [epoch_num] by one, whether it returns or raises. *)
Lemma epoch_counters df n ei σ r σ' :
  epoch hooks df n ei σ = (r, σ') ->
  epoch_num (self σ') = (epoch_num (self σ) + 1)%Z /\
  num_epochs (self σ') = num_epochs (self σ).
Proof.
  unfold epoch. rewrite bind_unfold. cbn [read]. rewrite bind_unfold. cbn [assign].
  intros Hr.
  match type of Hr with ?m ?s = _ => assert (Hs : steady m) end.
  { unfold before_epoch, after_epoch, trigger_epoch.
    repeat first [ apply steady_for_dataflow | progress steady ]. }
  by destruct (Hs _ _ _ Hr) as [-> ->].
Qed.

(** *** The [while] loop returns *)

Lemma while_epochs_returns fuel df n ei σ :
  (num_epochs (self σ) - epoch_num (self σ) <= Z.of_nat fuel)%Z ->
  exists r σ',
    while_epochs hooks fuel df n ei σ = Some (r, σ') /\
    exists new, trace σ' = trace σ ++ new /\ block_trace new (raised r).
Proof.
  revert σ. induction fuel as [|fuel IH]; intros σ Hfuel; simpl.
  - destruct (Z.ltb_spec (epoch_num (self σ)) (num_epochs (self σ))); [lia|].
    exists (Ok tt), σ. split; [done|]. exists []. rewrite app_nil_r. split; [done|]. by left.
  - destruct (Z.ltb_spec (epoch_num (self σ)) (num_epochs (self σ))).
    + destruct (epoch hooks df n ei σ) as [[[]|e] σ1] eqn:E.
      * destruct (epoch_counters _ _ _ _ _ _ E) as [He Hn].
        destruct (sound_epoch _ _ _ _ _ _ E) as (new1 & Ht1 & Hb1).
        destruct (IH σ1) as (r & σ' & -> & new2 & Ht2 & Hb2); [lia|].
        exists r, σ'. split; [done|]. exists (new1 ++ new2).
        rewrite Ht2, Ht1, app_assoc. split; [done|].
        apply block_trace_app; [|done]. by apply block_trace_returned.
      * exists (Raise e), σ1. split; [done|]. exact (sound_epoch _ _ _ _ _ _ E).
    + exists (Ok tt), σ. split; [done|]. exists []. rewrite app_nil_r. split; [done|]. by left.
Qed.

Lemma prologue_counters summary σ σ' :
  prologue hooks summary σ = (Ok tt, σ') ->
  epoch_num (self σ') = 0%Z /\ num_epochs (self σ') = num_epochs (self σ).
Proof.
  unfold prologue. rewrite bind_unfold.
  destruct (call hooks callbacks_set_trainer σ) as [[[]|e] σ1] eqn:E1; [|done].
  destruct (steady_call _ _ _ _ E1) as [_ <-].
  rewrite bind_unfold.
  destruct (for_each _ summary σ1) as [[[]|e] σ2] eqn:E2; [|done].
  assert (Hs : steady (for_each (fun s => call hooks (summary_set_trainer s)) summary)).
  { clear. induction summary as [|a l IH]; simpl; [apply steady_ret|].
    apply steady_bind; [apply steady_call | intros _; apply IH]. }
  destruct (Hs _ _ _ E2) as [_ <-].
  rewrite bind_unfold. cbn [assign]. rewrite bind_unfold. cbn [assign].
  intros Hr.
  assert (Hb : steady (before_train hooks)) by (unfold before_train; steady).
  by destruct (Hb _ _ _ Hr) as [-> ->].
Qed.

Lemma try_block_returns df n ei summary σ :
  exists r σ',
    try_block hooks (Z.to_nat (num_epochs (self σ))) df n ei summary σ = Some (r, σ') /\
    exists new, trace σ' = trace σ ++ new /\ block_trace new (raised r).
Proof.
  unfold try_block.
  destruct (prologue hooks summary σ) as [[[]|e] σ1] eqn:E.
  - destruct (prologue_counters _ _ _ E) as [He Hn].
    destruct (sound_prologue _ _ _ _ E) as (new1 & Ht1 & Hb1).
    destruct (while_epochs_returns (Z.to_nat (num_epochs (self σ))) df n ei σ1)
      as (r & σ' & -> & new2 & Ht2 & Hb2); [lia|].
    exists r, σ'. split; [done|]. exists (new1 ++ new2).
    rewrite Ht2, Ht1, app_assoc. split; [done|].
    apply block_trace_app; [|done]. by apply block_trace_returned.
  - exists (Raise e), σ1. split; [done|]. exact (sound_prologue _ _ _ _ E).
Qed.

(** *** [after_train] *)

Lemma after_train_events σ r σ' :
  after_train hooks σ = (r, σ') ->
  exists new, trace σ' = trace σ ++ new /\ after_train_trace new (raised r).
Proof.
  unfold after_train. rewrite bind_unfold. unfold call.
  destruct (hooks callbacks_after_train (self σ) (world σ)) as [[[]|e] w1]; simpl.
  - destruct (hooks _after_train (self σ) w1) as [r2 w2]. intros [= <- <-]. simpl.
    rewrite <- app_assoc. eexists. split; [reflexivity|]. exists (self σ). by right.
  - intros [= <- <-]. simpl. eexists. split; [done|].
    exists (self σ). left. by exists e.
Qed.

Lemma after_train_trace_once new exc :
  after_train_trace new exc -> occurrences is_after_train new = 1.
Proof. by intros (t & [(e & -> & _) | ->]). Qed.

Lemma after_train_trace_not_caught new exc :
  after_train_trace new exc -> occurrences is_caught new = 0.
Proof. by intros (t & [(e & -> & _) | ->]). Qed.

Lemma after_train_trace_unguarded new exc :
  after_train_trace new exc -> Forall (fun ev => ~ exists e, loud e ev) new.
Proof.
  intros (t & [(e & -> & _) | ->]); repeat constructor;
    by intros (e' & s & t' & [= <- _ _] & Hs).
Qed.

Lemma quiet_not_loud l : Forall quiet l -> Forall (fun ev => ~ exists e, loud e ev) l.
Proof.
  intros Hl. eapply Forall_impl; [exact Hl|].
  intros ev (s & t & -> & _) (e & s' & t' & Heq & _). discriminate.
Qed.

(** *** Early stop and [after_train] *)

(** C2, as the code has it.  Once [len(self.dataflow)] has returned,
    [train] returns or raises (it does not loop forever) and has called
    [self.callbacks.after_train()] exactly once, whatever the hooks did.
    If a call made inside the [try] block raised [StopTraining], the signal
    was caught exactly once, nothing follows that call in the trace but the
    catch and the calls of [after_train] (no further step or epoch), and
    [train] ends the way [after_train] ends: it returns when [after_train]
    returns. *)
Theorem train_stop_caught_once_after_train_once
    (self0 : t) (df : DataLoader) (n : nat) (ne : Z) (ei : option Z)
    (splits : option (list string)) (w : W) :
  len df = Ok n ->
  exists r σ,
    train hooks self0 df ne ei splits w = Some (r, σ) /\
    occurrences is_after_train (trace σ) = 1 /\
    forall pre s t post,
      trace σ = pre ++ Called s t (Some StopTraining) :: post ->
      guarded s = true ->
      occurrences is_caught (trace σ) = 1 /\
      exists after,
        post = Caught StopTraining :: after /\
        after_train_trace after (raised r).
Proof.
  intros Hlen. unfold train. rewrite Hlen.
  match goal with |- context [try_block _ _ _ _ _ ?sm ?s0] =>
    destruct (try_block_returns df n ei sm s0) as (r0 & σ1 & Htry & new & Hnew & Hblock)
  end.
  simpl in Htry, Hnew. rewrite Htry. clear Htry.
  assert (Hnoaft : occurrences is_after_train new = 0).
  { apply (block_trace_occurrences is_after_train new (raised r0)); [|done].
    intros s ? ?. by destruct s. }
  assert (Hnocaught : occurrences is_caught new = 0).
  { by apply (block_trace_occurrences is_caught new (raised r0)). }
  unfold except_finally.
  assert (Hdec : r0 = Raise StopTraining \/ r0 <> Raise StopTraining).
  { destruct r0 as [[]|e]; [by right|].
    destruct (decide (e = StopTraining)) as [->|]; [by left | right; congruence]. }
  destruct Hdec as [-> | Hother].
  - (* the signal is caught *)
    destruct (after_train hooks (log_caught StopTraining σ1)) as [r2 σ2] eqn:Eaft.
    destruct (after_train_events _ _ _ Eaft) as (aft & Haft & Hshape).
    simpl in Haft. rewrite Hnew in Haft.
    exists (match r2 with Ok _ => Ok tt | Raise e => Raise e end), σ2.
    split; [by destruct r2 as [[]|]|].
    assert (Hexc : raised (match r2 with Ok _ => Ok tt | Raise e => Raise e end) = raised r2)
      by (by destruct r2).
    rewrite Haft, !occurrences_app, Hnoaft, (after_train_trace_once _ _ Hshape).
    split; [done|]. intros pre s t post Heq Hs.
    rewrite Hnocaught, (after_train_trace_not_caught _ _ Hshape). split; [done|].
    destruct Hblock as [Hq | (new' & ev & e & -> & Hq & Hloud & [= <-])].
    + exfalso.
      assert (Hin : Called s t (Some StopTraining) ∈ (new ++ [Caught StopTraining]) ++ aft).
      { rewrite Heq. apply elem_of_app. right. by left. }
      apply elem_of_app in Hin as [Hin | Hin]; [apply elem_of_app in Hin as [Hin | Hin]|].
      * apply quiet_not_loud in Hq. rewrite Forall_forall in Hq.
        apply (Hq _ Hin). exists StopTraining, s, t. done.
      * by apply list_elem_of_singleton in Hin.
      * pose proof (after_train_trace_unguarded _ _ Hshape) as Hu.
        rewrite Forall_forall in Hu. apply (Hu _ Hin). by exists StopTraining, s, t.
    + rewrite <- !app_assoc in Heq. simpl in Heq. symmetry in Heq.
      destruct (split_unique (fun ev => exists e, loud e ev) _ _ _ _ _ _ Heq)
        as (_ & _ & ->).
      * by exists StopTraining, s, t.
      * by apply quiet_not_loud.
      * constructor; [by intros (e & s' & t' & [=] & _)|].
        exact (after_train_trace_unguarded _ _ Hshape).
      * exists aft. by rewrite Hexc.
  - (* any other outcome of the try block *)
    assert (Hsame : (match r0 with
                     | Raise StopTraining => (Ok tt, log_caught StopTraining σ1)
                     | _ => (r0, σ1)
                     end) = (r0, σ1)).
    { destruct r0 as [[]|[]]; done. }
    rewrite Hsame. clear Hsame.
    destruct (after_train hooks σ1) as [r2 σ2] eqn:Eaft.
    destruct (after_train_events _ _ _ Eaft) as (aft & Haft & Hshape).
    rewrite Hnew in Haft. simpl in Haft.
    exists (match r2 with Ok _ => r0 | Raise e => Raise e end), σ2.
    split; [by destruct r2 as [[]|]|].
    rewrite Haft, !occurrences_app, Hnoaft, (after_train_trace_once _ _ Hshape).
    split; [done|]. intros pre s t post Heq Hs. exfalso.
    destruct Hblock as [Hq | (new' & ev & e & -> & Hq & Hloud & He)].
    + assert (Hin : Called s t (Some StopTraining) ∈ new ++ aft).
      { rewrite Heq. apply elem_of_app. right. by left. }
      apply elem_of_app in Hin as [Hin | Hin].
      * apply quiet_not_loud in Hq. rewrite Forall_forall in Hq.
        apply (Hq _ Hin). by exists StopTraining, s, t.
      * pose proof (after_train_trace_unguarded _ _ Hshape) as Hu.
        rewrite Forall_forall in Hu. apply (Hu _ Hin). by exists StopTraining, s, t.
    + rewrite <- !app_assoc in Heq. simpl in Heq. symmetry in Heq.
      destruct (split_unique (fun ev => exists e, loud e ev) _ _ _ _ _ _ Heq)
        as (_ & <- & _).
      * by exists StopTraining, s, t.
      * by apply quiet_not_loud.
      * exact (after_train_trace_unguarded _ _ Hshape).
      * destruct Hloud as (s' & t' & [= _ _ <-] & _).
        apply Hother. by destruct r0 as [[]|]; simplify_eq/=.
Qed.

End LoopFacts.

(** *** Concrete runs *)

(** A trainer object before [train] has assigned anything. *)
Definition blank : t := mk 0 None 0 0 0 None.

Definition batches (n : nat) : DataLoader :=
  {| len := Ok n; distributed_sampler := false |}.

(** An iterable without [__len__], such as a generator. *)
Definition generator : DataLoader :=
  {| len := Raise TypeError; distributed_sampler := false |}.

(** The world counts the steps computed; every call returns. *)
Definition counting (s : site) (self : t) (w : nat) : result unit * nat :=
  match s with
  | _run_step => (Ok tt, S w)
  | _ => (Ok tt, w)
  end.

(** A callback raises [StopTraining] in [after_step] of step [l] of epoch [e]. *)
Definition stop_at (e l : Z) (s : site) (self : t) (w : nat) : result unit * nat :=
  match s with
  | callbacks_after_step =>
      if bool_decide (epoch_num self = e /\ local_step self = Some l)
      then (Raise StopTraining, w) else (Ok tt, w)
  | _ => counting s self w
  end.

(** A callback raises [StopTraining] in its [after_train] hook. *)
Definition stop_in_after_train (s : site) (self : t) (w : nat) : result unit * nat :=
  match s with
  | callbacks_after_train => (Raise StopTraining, w)
  | _ => counting s self w
  end.

(** The spec's early-stop scenario: the signal is raised during step 3 of
    epoch 2, with four batches an epoch and five epochs asked for.  Seven
    steps were computed, [train] returns, and [after_train] ran once. *)
Example early_stop_epoch2_step3 :
  exists σ,
    train (stop_at 2 3) blank (batches 4) 5 None None 0 = Some (Ok tt, σ) /\
    world σ = 7 /\
    global_step (self σ) = 7%Z /\
    occurrences is_after_train (trace σ) = 1 /\
    occurrences is_caught (trace σ) = 1.
Proof. eexists. split; [vm_compute; reflexivity|]. by vm_compute. Qed.

Lemma train_stop_caught_once_after_train_once_witness :
  exists r σ,
    train (stop_at 2 3) blank (batches 4) 5 None None 0 = Some (r, σ) /\
    occurrences is_after_train (trace σ) = 1 /\
    forall pre s t post,
      trace σ = pre ++ Called s t (Some StopTraining) :: post ->
      guarded s = true ->
      occurrences is_caught (trace σ) = 1 /\
      exists after,
        post = Caught StopTraining :: after /\
        after_train_trace after (raised r).
Proof.
  apply (train_stop_caught_once_after_train_once (stop_at 2 3) blank (batches 4) 4).
  reflexivity.
Defined.

(** C2 as stated fails in two places.  A [StopTraining] raised by the
    [after_train] hook itself, which runs in the [finally] clause, is not
    caught: it leaves [train].  And when [len(self.dataflow)] raises,
    [train] is left before the [try] block: [after_train] is never called. *)
Lemma train_stop_in_after_train_escapes :
  (exists σ,
     train stop_in_after_train blank (batches 1) 1 None None 0
       = Some (Raise StopTraining, σ) /\
     occurrences is_caught (trace σ) = 0) /\
  (exists σ,
     train counting blank generator 1 None None 0 = Some (Raise TypeError, σ) /\
     occurrences is_after_train (trace σ) = 0).
Proof.
  split; eexists; (split; [vm_compute; reflexivity | by vm_compute]).
Qed.

End TrainerFacts.

(** ** The environment of the monitors *)

(** A file holds a JSON document or something [json.load] rejects (an
    empty or partly written file). *)
Inductive file :=
| Json (j : json)
| NotJson.

(** What the monitors log, with the arguments of the format strings. *)
Inductive message :=
| FoundExistingJSON (dir : string)
| NotThePredecessor (history_epoch : json) (starting_epoch : Z)
| ResumeAdvice
| WillBackup (starting_epoch : Z) (backup_fname : string)
| ExceptionInWriteStat
| Scalars (texts : list (string * float64)).

Inductive level := INFO | WARNING | ERROR.

(** The files, the log, the logger directory, the clock as
    [datetime.now().strftime('%m%d-%H%M%S')] reads it, and for each coming
    write operation whether the disk fails it. *)
Record env := {
  fs : gmap string file;
  log : list (level * message);
  logger_dir : string;
  now : string;
  faults : list bool
}.

Definition with_fs (f : gmap string file) (e : env) : env :=
  {| fs := f; log := log e; logger_dir := logger_dir e; now := now e; faults := faults e |}.

Definition logger (l : level) (m : message) (e : env) : env :=
  {| fs := fs e; log := log e ++ [(l, m)]; logger_dir := logger_dir e;
     now := now e; faults := faults e |}.

(** The next write operation: whether it fails, and the faults left. *)
Definition next_fault (e : env) : bool * env :=
  match faults e with
  | [] => (false, e)
  | b :: rest =>
      (b, {| fs := fs e; log := log e; logger_dir := logger_dir e;
             now := now e; faults := rest |})
  end.

(** [os.path.join(dir, name)] for a relative [name]. *)
Definition path_join (dir name : string) : string :=
  if bool_decide (dir = "") then name
  else if String.eqb (String.substring (String.length dir - 1) 1 dir) "/"
       then dir +:+ name
       else dir +:+ "/" +:+ name.

(** [open(path, 'w')]: creates or empties the file. *)
Definition open_w (path : string) (e : env) : result unit * env :=
  let '(fails, e) := next_fault e in
  if fails then (Raise IOError, e)
  else (Ok tt, with_fs (<[path := NotJson]> (fs e)) e).

(** [json.dump(doc, f)] into the open file at [path], and closing it. *)
Definition dump (doc : json) (path : string) (e : env) : result unit * env :=
  let '(fails, e) := next_fault e in
  if fails then (Raise IOError, e)
  else (Ok tt, with_fs (<[path := Json doc]> (fs e)) e).

(** [shutil.move(src, dst)] for files: a rename, which replaces [dst]. *)
Definition move (src dst : string) (e : env) : result unit * env :=
  let '(fails, e) := next_fault e in
  if fails then (Raise IOError, e)
  else
    match fs e !! src with
    | None => (Raise IOError, e)
    | Some content => (Ok tt, with_fs (<[dst := content]> (delete src (fs e))) e)
    end.

(** ** [Monitor], the base class ([torchpack/callbacks/monitor.py]) *)

Module Monitor.

(** The lifecycle hooks a monitor has as a [Callback]. *)
Inductive hook :=
| before_train | after_train
| before_epoch | after_epoch
| before_step | after_step
| trigger_epoch | trigger_step | trigger.

(** A method acting on the object [S] and the environment. *)
Definition method (S : Type) : Type := S -> env -> result unit * (S * env).

(** What a subclass of [Monitor] provides: the overridable [_add_scalar]
    and [_add_image], and the public hooks. *)
Class impl (S : Type) := {
  _add_scalar : string -> pyval -> Trainer.t -> method S;
  _add_image : string -> ndarray -> Trainer.t -> method S;
  on : hook -> Trainer.t -> method S
}.

Definition pass {S : Type} : method S := fun s e => (Ok tt, (s, e)).

(** [Monitor.add_scalar]: numpy integers become [int], numpy floats become
    [float], and the value goes to [_add_scalar]. *)
Definition add_scalar {S} `{impl S} (name : string) (val : pyval) (tr : Trainer.t)
    : method S :=
  let val := match val with NpInteger z => Py (JInt z) | _ => val end in
  let val := match val with NpFloating f => Py (JFloat f) | _ => val end in
  _add_scalar name val tr.

(** The array [add_image] hands to [_add_image]: the statements between
    the two [assert]s. *)
Definition canonical_image (val : pyval) : result ndarray :=
  match val with
  | NdArray a =>
      let a :=
        match shape a with
        | [h; w] => {| shape := [1; h; w; 1]; data := data a |}
        | [d0; d1; d2] =>
            if bool_decide (d2 ∈ [1; 3; 4])
            then {| shape := [1; d0; d1; d2]; data := data a |}
            else {| shape := [d0; d1; d2; 1]; data := data a |}
        | _ => a
        end in
      if length (shape a) =? 4 then Ok a else Raise AssertionError
  | _ => Raise AssertionError
  end.

(** [Monitor.add_image] *)
Definition add_image {S} `{impl S} (name : string) (val : pyval) (tr : Trainer.t)
    : method S := fun s e =>
  match canonical_image val with
  | Ok a => _add_image name a tr s e
  | Raise x => (Raise x, (s, e))
  end.

(** A plain [Monitor()]: every overridable method is [pass]. *)
#[global] Instance base : impl unit := {|
  _add_scalar := fun _ _ _ => pass;
  _add_image := fun _ _ _ => pass;
  on := fun _ _ => pass
|}.

End Monitor.

(** ** [JSONWriter] *)

Module JSONWriter.

Definition FILENAME : string := "stats.json".

(** The attributes [_before_train] assigns.  [_fname] is assigned after the
    existing file was loaded, so it can be missing when that raised. *)
Record attrs := {
  _stats : list json;
  _stat_now : gmap string json;
  _last_gs : Z;
  _fname : option string
}.

(** A [JSONWriter] object: [None] until [_before_train] has run, since the
    class has no [__init__]. *)
Definition t : Type := option attrs.

Definition with_stats (v : list json) (a : attrs) : attrs :=
  {| _stats := v; _stat_now := _stat_now a; _last_gs := _last_gs a; _fname := _fname a |}.
Definition with_stat_now (v : gmap string json) (a : attrs) : attrs :=
  {| _stats := _stats a; _stat_now := v; _last_gs := _last_gs a; _fname := _fname a |}.
Definition with_fname (v : string) (a : attrs) : attrs :=
  {| _stats := _stats a; _stat_now := _stat_now a; _last_gs := _last_gs a; _fname := Some v |}.

(** [load_existing_json]: the list in [stats.json], [None] without the file. *)
Definition load_existing_json (e : env) : result (option (list json)) :=
  match fs e !! path_join (logger_dir e) FILENAME with
  | None => Ok None
  | Some NotJson => Raise ValueError
  | Some (Json (JList stats)) => Ok (Some stats)
  | Some (Json _) => Raise AssertionError
  end.

(** [stats[-1]['epoch_num'] + 1] *)
Definition last_epoch_plus_one (stats : list json) : result json :=
  match last stats with
  | None => Raise IndexError
  | Some record =>
      match json_getitem record "epoch_num" with
      | Ok v => json_add v 1
      | Raise x => Raise x
      end
  end.

(** The write of [_trigger]: the [try] block and its [except IOError]. *)
Definition write_stat (stats : list json) (fname : string) (e : env) : env :=
  let tmp_filename := fname +:+ ".tmp" in
  let attempt :=
    match open_w tmp_filename e with
    | (Ok _, e) =>
        match dump (JList stats) tmp_filename e with
        | (Ok _, e) => move tmp_filename fname e
        | r => r
        end
    | r => r
    end in
  match attempt with
  | (Ok _, e) => e
  | (Raise _, e) => logger ERROR ExceptionInWriteStat e
  end.

(** [JSONWriter._trigger] *)
Definition _trigger (tr : Trainer.t) : Monitor.method t := fun w e =>
  match w with
  | None => (Raise AttributeError, (w, e))
  | Some a =>
      match size (_stat_now a) with
      | O => (Ok tt, (w, e))
      | S _ =>
          let stamped :=
            <["global_step" := JInt (Trainer.global_step tr)]>
              (<["epoch_num" := JInt (Trainer.epoch_num tr)]> (_stat_now a)) in
          let a := with_stat_now ∅ (with_stats (_stats a ++ [JDict stamped]) a) in
          match _fname a with
          | None => (Raise AttributeError, (Some a, e))
          | Some fname => (Ok tt, (Some a, write_stat (_stats a) fname e))
          end
      end
  end.

(** [JSONWriter._trigger_step] *)
Definition _trigger_step (tr : Trainer.t) : Monitor.method t := fun w e =>
  match Trainer.local_step tr with
  | None => (Raise AttributeError, (w, e))
  | Some local_step =>
      if negb (local_step =? Trainer.steps_per_epoch tr - 1)%Z
      then _trigger tr w e
      else (Ok tt, (w, e))
  end.

(** [JSONWriter._trigger_epoch] *)
Definition _trigger_epoch (tr : Trainer.t) : Monitor.method t := _trigger tr.

(** [JSONWriter._before_train] *)
Definition _before_train (tr : Trainer.t) : Monitor.method t := fun w e =>
  let a := {| _stats := []; _stat_now := ∅; _last_gs := -1;
              _fname := w ≫= _fname |} in
  match load_existing_json e with
  | Raise x => (Raise x, (Some a, e))
  | Ok stats =>
      let fname := path_join (logger_dir e) FILENAME in
      let a := with_fname fname a in
      match stats with
      | None => _trigger tr (Some a) e
      | Some stats =>
          let epoch :=
            match last_epoch_plus_one stats with
            | Ok v => Some v
            | Raise _ => None
            end in
          match Trainer.starting_epoch tr with
          | None => (Raise AttributeError, (Some a, e))
          | Some starting_epoch =>
              match epoch with
              | Some v =>
                  if json_eq_Z v starting_epoch then
                    let e := logger INFO (FoundExistingJSON (logger_dir e)) e in
                    _trigger tr (Some (with_stats stats a)) e
                  else
                    let before :=
                      match json_add v (-1) with Ok x => x | Raise _ => JNull end in
                    let e := logger WARNING (NotThePredecessor before starting_epoch) e in
                    let e := logger WARNING ResumeAdvice e in
                    let backup_fname :=
                      path_join (logger_dir e) (FILENAME +:+ "." +:+ now e) in
                    let e := logger WARNING (WillBackup starting_epoch backup_fname) e in
                    match move fname backup_fname e with
                    | (Ok _, e) => _trigger tr (Some a) e
                    | (Raise x, e) => (Raise x, (Some a, e))
                    end
              | None =>
                  let e := logger INFO (FoundExistingJSON (logger_dir e)) e in
                  _trigger tr (Some (with_stats stats a)) e
              end
          end
      end
  end.

Section WithBuiltins.
Variable float_of_str : string -> result float64.

(** [JSONWriter._add_scalar]: [self._stat_now[name] = float(val)] *)
Definition _add_scalar (name : string) (val : pyval) (tr : Trainer.t)
    : Monitor.method t := fun w e =>
  match py_float float_of_str val with
  | Raise x => (Raise x, (w, e))
  | Ok f =>
      match w with
      | None => (Raise AttributeError, (w, e))
      | Some a => (Ok tt, (Some (with_stat_now (<[name := JFloat f]> (_stat_now a)) a), e))
      end
  end.

(** Modelled from the spec: the public hooks a [JSONWriter] inherits from
    [Callback] ([torchpack/callbacks/callback.py], which is not among the
    sources).  Each public hook calls the method of the same name with a
    leading underscore, which does nothing unless the class overrides it. *)
Definition on (h : Monitor.hook) (tr : Trainer.t) : Monitor.method t :=
  match h with
  | Monitor.before_train => _before_train tr
  | Monitor.trigger_step => _trigger_step tr
  | Monitor.trigger_epoch => _trigger_epoch tr
  | Monitor.trigger => _trigger tr
  | _ => Monitor.pass
  end.

Definition monitor : Monitor.impl t := {|
  Monitor._add_scalar := _add_scalar;
  Monitor._add_image := fun _ _ _ => Monitor.pass;
  Monitor.on := on
|}.

End WithBuiltins.

Section EpochNumber.

(** [int(s)] for a string [s]: Python's parser of int literals, which is
    no part of the two files. *)
Variable int_of_str : string -> result Z.

(** [int(f)] for a float: the integer part, [ValueError] for a NaN and
    [OverflowError] for an infinity. *)
Definition int_of_float (f : float64) : result Z :=
  match f with
  | S754_zero _ => Ok 0%Z
  | S754_finite s m e =>
      let magnitude :=
        (if (0 <=? e)%Z then Z.pos m * 2 ^ e else Z.pos m `div` 2 ^ (- e))%Z in
      Ok (if s then - magnitude else magnitude)%Z
  | S754_infinity _ => Raise OverflowError
  | S754_nan => Raise ValueError
  end.

(** The builtin [int(v)] for plain data. *)
Definition json_int (v : json) : result Z :=
  match v with
  | JBool b => Ok (if b then 1 else 0)%Z
  | JInt z => Ok z
  | JFloat f => int_of_float f
  | JStr s => int_of_str s
  | JNull | JList _ | JDict _ => Raise TypeError
  end.

(** [load_existing_epoch_number]: [int(stats[-1]['epoch_num'])], [None]
    when that raises; [load_existing_json] is called outside the [try]. *)
Definition load_existing_epoch_number (e : env) : result (option Z) :=
  match load_existing_json e with
  | Raise x => Raise x
  | Ok None => Ok None
  | Ok (Some stats) =>
      match last stats with
      | None => Ok None
      | Some record =>
          match json_getitem record "epoch_num" with
          | Raise _ => Ok None
          | Ok v =>
              match json_int v with
              | Ok z => Ok (Some z)
              | Raise _ => Ok None
              end
          end
      end
  end.

End EpochNumber.

End JSONWriter.

(** ** [ScalarPrinter] *)

Module ScalarPrinter.

(** A compiled regular expression, by what [r.search(name) is not None]
    answers. *)
Definition regex : Type := string -> bool.

Record t := {
  _whitelist : option (list regex);
  _blacklist : list regex;
  _enable_step : bool;
  _enable_epoch : bool;
  _dic : gmap string float64
}.

Definition with_dic (v : gmap string float64) (p : t) : t :=
  {| _whitelist := _whitelist p; _blacklist := _blacklist p;
     _enable_step := _enable_step p; _enable_epoch := _enable_epoch p; _dic := v |}.

(** [ScalarPrinter.__init__], the patterns given compiled. *)
Definition __init__ (trigger_epoch trigger_step : bool)
    (whitelist blacklist : option (list regex)) : t :=
  {| _whitelist := whitelist;
     _blacklist := match blacklist with None => [] | Some rs => rs end;
     _enable_step := trigger_step;
     _enable_epoch := trigger_epoch;
     _dic := ∅ |}.

Definition match_regex_list (regexs : list regex) (name : string) : bool :=
  existsb (fun r => r name) regexs.

(** [sorted(self._dic.items(), key=operator.itemgetter(0))] *)
Definition sorted_items (dic : gmap string float64) : list (string * float64) :=
  merge_sort (fun a b => String.leb a.1 b.1) (map_to_list dic).

(** [ScalarPrinter._trigger] *)
Definition _trigger (tr : Trainer.t) : Monitor.method t := fun p e =>
  let texts :=
    List.filter
      (fun kv =>
         match _whitelist p with
         | None => true
         | Some whitelist => match_regex_list whitelist kv.1
         end
         && negb (match_regex_list (_blacklist p) kv.1))
      (sorted_items (_dic p)) in
  let e := match texts with [] => e | _ => logger INFO (Scalars texts) e end in
  (Ok tt, (with_dic ∅ p, e)).

(** [ScalarPrinter._before_train] *)
Definition _before_train (tr : Trainer.t) : Monitor.method t := _trigger tr.

(** [ScalarPrinter._trigger_step] *)
Definition _trigger_step (tr : Trainer.t) : Monitor.method t := fun p e =>
  if _enable_step p then
    match Trainer.local_step tr with
    | None => (Raise AttributeError, (p, e))
    | Some local_step =>
        if negb (local_step =? Trainer.steps_per_epoch tr - 1)%Z
        then _trigger tr p e
        else if negb (_enable_epoch p) then _trigger tr p e
        else (Ok tt, (p, e))
    end
  else (Ok tt, (p, e)).

(** [ScalarPrinter._trigger_epoch] *)
Definition _trigger_epoch (tr : Trainer.t) : Monitor.method t := fun p e =>
  if _enable_epoch p then _trigger tr p e else (Ok tt, (p, e)).

Section WithBuiltins.
Variable float_of_str : string -> result float64.

(** [ScalarPrinter._add_scalar]: [self._dic[name] = float(val)] *)
Definition _add_scalar (name : string) (val : pyval) (tr : Trainer.t)
    : Monitor.method t := fun p e =>
  match py_float float_of_str val with
  | Raise x => (Raise x, (p, e))
  | Ok f => (Ok tt, (with_dic (<[name := f]> (_dic p)) p, e))
  end.

(** Modelled from the spec: the public hooks a [ScalarPrinter] inherits
    from [Callback] ([torchpack/callbacks/callback.py], which is not among
    the sources).  Each public hook calls the method of the same name with
    a leading underscore, which does nothing unless the class overrides
    it. *)
Definition on (h : Monitor.hook) (tr : Trainer.t) : Monitor.method t :=
  match h with
  | Monitor.before_train => _before_train tr
  | Monitor.trigger_step => _trigger_step tr
  | Monitor.trigger_epoch => _trigger_epoch tr
  | Monitor.trigger => _trigger tr
  | _ => Monitor.pass
  end.

Definition monitor : Monitor.impl t := {|
  Monitor._add_scalar := _add_scalar;
  Monitor._add_image := fun _ _ _ => Monitor.pass;
  Monitor.on := on
|}.

End WithBuiltins.

End ScalarPrinter.

(** ** [Monitors], the container of all monitors *)

Module Monitors.

Section Members.

(** The member monitors are objects of any classes that implement
    [Monitor]; [S] is the type of their states. *)
Context {S : Type} `{Monitor.impl S}.

(** [scalars] is a [defaultdict(list)]: the history of each name, a list
    of [(global_step, value)]. *)
Record t := {
  monitors : list S;
  scalars : gmap string (list (Z * pyval))
}.

(** [Monitors.__init__] *)
Definition __init__ (monitors : list S) : t :=
  {| monitors := monitors; scalars := ∅ |}.

(** [for monitor in self.monitors: monitor.f()]: an exception leaves the
    loop, and the monitors after the one that raised are not called. *)
Fixpoint for_monitors (f : Monitor.method S) (ms : list S) (e : env)
    : result unit * (list S * env) :=
  match ms with
  | [] => (Ok tt, ([], e))
  | m :: rest =>
      match f m e with
      | (Ok _, (m', e')) =>
          let '(r, (rest', e'')) := for_monitors f rest e' in
          (r, (m' :: rest', e''))
      | (Raise x, (m', e')) => (Raise x, (m' :: rest, e'))
      end
  end.

Definition broadcast (f : Monitor.method S) : Monitor.method t := fun g e =>
  let '(r, (ms, e')) := for_monitors f (monitors g) e in
  (r, ({| monitors := ms; scalars := scalars g |}, e')).

(** The lifecycle hooks: [_before_train], ..., [_trigger]. *)
Definition on (h : Monitor.hook) (tr : Trainer.t) : Monitor.method t :=
  broadcast (Monitor.on h tr).

(** [self.scalars[name]] of a [defaultdict(list)]: a missing name is
    inserted with an empty list. *)
Definition scalars_getitem (name : string) (g : t) : list (Z * pyval) * t :=
  match scalars g !! name with
  | Some history => (history, g)
  | None => ([], {| monitors := monitors g; scalars := <[name := []]> (scalars g) |})
  end.

(** [Monitors._add_scalar] *)
Definition _add_scalar (name : string) (val : pyval) (tr : Trainer.t)
    : Monitor.method t := fun g e =>
  let '(history, g) := scalars_getitem name g in
  let g := {| monitors := monitors g;
              scalars := <[name := history ++ [(Trainer.global_step tr, val)]]> (scalars g) |} in
  broadcast (Monitor.add_scalar name val tr) g e.

(** [Monitors._add_image] *)
Definition _add_image (tag : string) (val : ndarray) (tr : Trainer.t)
    : Monitor.method t :=
  broadcast (Monitor.add_image tag (NdArray val) tr).

(** [Monitors.get_latest]: [self.scalars[name][-1][1]] *)
Definition get_latest (name : string) (g : t) : result pyval * t :=
  let '(history, g) := scalars_getitem name g in
  match last history with
  | Some (_, val) => (Ok val, g)
  | None => (Raise IndexError, g)
  end.

(** [Monitors.get_history]: [self.scalars[name]] *)
Definition get_history (name : string) (g : t) : result (list (Z * pyval)) * t :=
  let '(history, g) := scalars_getitem name g in
  (Ok history, g).

(** [Monitors] is itself a [Monitor]. *)
#[global] Instance monitor : Monitor.impl t := {|
  Monitor._add_scalar := _add_scalar;
  Monitor._add_image := _add_image;
  Monitor.on := on
|}.

End Members.

Arguments t S : clear implicits.

End Monitors.

(** ** Facts about [Monitor.add_scalar] and [Monitor.add_image] *)

Module MonitorFacts.

Section AnyMonitor.
Context {S : Type} `{Monitor.impl S}.

(** C4, as the code has it.  [add_scalar] turns a numpy integer into the
    Python [int] of the same value and a numpy float into the Python
    [float] of the same value, and hands every other value to
    [_add_scalar] as it is: it checks no type and raises nothing of its
    own. *)
Theorem add_scalar_converts_numpy_only (name : string) (tr : Trainer.t) :
  (forall z, Monitor.add_scalar name (NpInteger z) tr
             = Monitor._add_scalar name (Py (JInt z)) tr) /\
  (forall f, Monitor.add_scalar name (NpFloating f) tr
             = Monitor._add_scalar name (Py (JFloat f)) tr) /\
  (forall j, Monitor.add_scalar name (Py j) tr = Monitor._add_scalar name (Py j) tr) /\
  (forall a, Monitor.add_scalar name (NdArray a) tr
             = Monitor._add_scalar name (NdArray a) tr).
Proof. by repeat split. Qed.

(** C6, as the code has it.  [add_image] hands [_add_image] an array of
    rank 4 with the elements of its argument: [(H,W)] becomes
    [(1,H,W,1)]; [(H,W,C)] with [C] in [{1,3,4}] becomes [(1,H,W,C)]; any
    other rank-3 shape [(N,H,W)] becomes [(N,H,W,1)]; an array of rank 4
    passes as it is; an array of any other rank, and a value that is no
    array, fail the assertion. *)
Theorem add_image_canonical_shape (name : string) (tr : Trainer.t) (s : S) (e : env) :
  (forall a h w, shape a = [h; w] ->
     Monitor.add_image name (NdArray a) tr s e
     = Monitor._add_image name {| shape := [1; h; w; 1]; data := data a |} tr s e) /\
  (forall a h w c, shape a = [h; w; c] -> c ∈ [1; 3; 4] ->
     Monitor.add_image name (NdArray a) tr s e
     = Monitor._add_image name {| shape := [1; h; w; c]; data := data a |} tr s e) /\
  (forall a n h w, shape a = [n; h; w] -> w ∉ [1; 3; 4] ->
     Monitor.add_image name (NdArray a) tr s e
     = Monitor._add_image name {| shape := [n; h; w; 1]; data := data a |} tr s e) /\
  (forall a, length (shape a) = 4 ->
     Monitor.add_image name (NdArray a) tr s e = Monitor._add_image name a tr s e) /\
  (forall a, length (shape a) <> 2 -> length (shape a) <> 3 -> length (shape a) <> 4 ->
     Monitor.add_image name (NdArray a) tr s e = (Raise AssertionError, (s, e))) /\
  (forall val, (forall a, val <> NdArray a) ->
     Monitor.add_image name val tr s e = (Raise AssertionError, (s, e))).
Proof.
  unfold Monitor.add_image, Monitor.canonical_image. repeat split.
  - intros a h w ->. done.
  - intros a h w c -> Hc. by rewrite bool_decide_eq_true_2.
  - intros a n h w -> Hw. by rewrite bool_decide_eq_false_2.
  - intros [sh d] Hlen. simpl in *.
    destruct sh as [|? [|? [|? [|? [|? ?]]]]]; simplify_eq/=. done.
  - intros [sh d] H2 H3 H4. simpl in *.
    destruct sh as [|? [|? [|? [|? [|? ?]]]]]; simplify_eq/=; done.
  - intros val Hval. destruct val; try done. by destruct (Hval a).
Qed.

End AnyMonitor.

(** C4 as stated fails: a string, which is no number, passes through
    [add_scalar] of a plain [Monitor] without any failure, and a numpy
    integer is handed over as an [int], not as a float. *)
Lemma add_scalar_accepts_a_string :
  Monitor.add_scalar (S := unit) "loss" (Py (JStr "abc")) TrainerFacts.blank tt
    {| fs := ∅; log := []; logger_dir := "log"; now := "0101-000000"; faults := [] |}
  = (Ok tt, (tt, {| fs := ∅; log := []; logger_dir := "log"; now := "0101-000000";
                    faults := [] |})) /\
  Monitor.add_scalar (S := unit) "loss" (NpInteger 3) TrainerFacts.blank
  = Monitor._add_scalar "loss" (Py (JInt 3)) TrainerFacts.blank.
Proof. by split. Qed.

Lemma add_image_canonical_shape_witness :
  Monitor.add_image (S := unit) "img"
    (NdArray {| shape := [2; 3]; data := replicate 6 (float_of_Z 0) |}) TrainerFacts.blank tt
    {| fs := ∅; log := []; logger_dir := "log"; now := "0101-000000"; faults := [] |}
  = Monitor._add_image "img"
      {| shape := [1; 2; 3; 1]; data := replicate 6 (float_of_Z 0) |} TrainerFacts.blank tt
      {| fs := ∅; log := []; logger_dir := "log"; now := "0101-000000"; faults := [] |}.
Proof.
  apply (proj1 (add_image_canonical_shape (S := unit) "img" TrainerFacts.blank tt _)
           {| shape := [2; 3]; data := replicate 6 (float_of_Z 0) |} 2 3).
  reflexivity.
Defined.

(** C6 as stated fails: an array of rank 4 does not fail, it is handed
    over as it is. *)
Lemma add_image_accepts_rank4 :
  Monitor.canonical_image
    (NdArray {| shape := [2; 1; 1; 3]; data := replicate 6 (float_of_Z 0) |})
  = Ok {| shape := [2; 1; 1; 3]; data := replicate 6 (float_of_Z 0) |}.
Proof. reflexivity. Qed.

End MonitorFacts.

(** ** Facts about [Monitors] *)

Module MonitorsFacts.
Import Monitors.

(** What callers do with a monitor group during a run, each call with the
    trainer's attributes at the time. *)
Inductive call :=
| AddScalar (tr : Trainer.t) (name : string) (val : pyval)
| Hook (tr : Trainer.t) (h : Monitor.hook)
| GetLatest (name : string)
| GetHistory (name : string).

(** The value [add_scalar] hands to [_add_scalar]. *)
Definition handed (val : pyval) : pyval :=
  match val with
  | NpInteger z => Py (JInt z)
  | NpFloating f => Py (JFloat f)
  | _ => val
  end.

(** One entry per [add_scalar] call for [name], in call order. *)
Fixpoint recorded (name : string) (calls : list call) : list (Z * pyval) :=
  match calls with
  | [] => []
  | AddScalar tr n val :: rest =>
      if bool_decide (n = name)
      then (Trainer.global_step tr, handed val) :: recorded name rest
      else recorded name rest
  | _ :: rest => recorded name rest
  end.

(** The history as C3 words it: one entry per step at which a trigger
    occurred with a pending value for [name].  [pending] is the value added
    since the last trigger. *)
Fixpoint history_by_triggers (name : string) (pending : option pyval)
    (calls : list call) : list (Z * pyval) :=
  match calls with
  | [] => []
  | AddScalar tr n val :: rest =>
      history_by_triggers name (if bool_decide (n = name) then Some (handed val) else pending) rest
  | Hook tr (Monitor.trigger | Monitor.trigger_step | Monitor.trigger_epoch) :: rest =>
      match pending with
      | Some val => (Trainer.global_step tr, val) :: history_by_triggers name None rest
      | None => history_by_triggers name None rest
      end
  | _ :: rest => history_by_triggers name pending rest
  end.

(** The steps at which the calls were made. *)
Fixpoint steps_of (calls : list call) : list Z :=
  match calls with
  | [] => []
  | (AddScalar tr _ _ | Hook tr _) :: rest => Trainer.global_step tr :: steps_of rest
  | _ :: rest => steps_of rest
  end.

Section Members.
Context {S : Type} `{Monitor.impl S}.

(** The group and the environment after one call; an exception a call
    raises is the caller's to handle, the effects made before it stay. *)
Definition perform (c : call) (ge : Monitors.t S * env) : Monitors.t S * env :=
  match c with
  | AddScalar tr name val => snd (Monitor.add_scalar name val tr ge.1 ge.2)
  | Hook tr h => snd (Monitor.on h tr ge.1 ge.2)
  | GetLatest name => (snd (get_latest name ge.1), ge.2)
  | GetHistory name => (snd (get_history name ge.1), ge.2)
  end.

Definition perform_all (calls : list call) (ge : Monitors.t S * env) : Monitors.t S * env :=
  foldl (fun ge c => perform c ge) ge calls.

(** The history of [name] in the cache, a missing name read as empty. *)
Definition cached (name : string) (g : Monitors.t S) : list (Z * pyval) :=
  default [] (scalars g !! name).

(** *** The fan-out *)

Lemma for_monitors_all_return (f : Monitor.method S) ms e ms' e' :
  for_monitors f ms e = (Ok tt, (ms', e')) -> length ms' = length ms.
Proof.
  revert e ms'. induction ms as [|m ms IH]; intros e ms'; simpl.
  - by intros [= <- <-].
  - destruct (f m e) as [[[]|x] [m1 e1]]; [|done].
    destruct (for_monitors f ms e1) as [r [ms1 e2]] eqn:E.
    intros [= -> <- <-]. simpl. f_equal. exact (IH _ _ E).
Qed.

(** The loop stops at the first monitor whose method raises: the monitors
    after it are left as they were. *)
Lemma for_monitors_stops (f : Monitor.method S) ms1 m ms2 e ms1' e1 x m' e2 :
  for_monitors f ms1 e = (Ok tt, (ms1', e1)) ->
  f m e1 = (Raise x, (m', e2)) ->
  for_monitors f (ms1 ++ m :: ms2) e = (Raise x, (ms1' ++ m' :: ms2, e2)).
Proof.
  revert e ms1'. induction ms1 as [|m1 ms1 IH]; intros e ms1'; simpl.
  - intros [= <- <-] ->. done.
  - destruct (f m1 e) as [[[]|y] [m1' e']]; [|done].
    destruct (for_monitors f ms1 e') as [r [ms1'' e'']] eqn:E.
    intros [= -> <- <-] Hm. by rewrite (IH _ _ E Hm).
Qed.

Lemma broadcast_scalars (f : Monitor.method S) g e :
  scalars (snd (broadcast f g e)).1 = scalars g.
Proof.
  unfold broadcast. by destruct (for_monitors f (monitors g) e) as [r [ms e']].
Qed.

(** *** The cache *)

Lemma cached_add_scalar name val tr g e n :
  cached n (snd (_add_scalar name val tr g e)).1 =
  if bool_decide (name = n) then cached n g ++ [(Trainer.global_step tr, val)]
  else cached n g.
Proof.
  unfold _add_scalar, scalars_getitem, cached.
  destruct (scalars g !! name) as [history|] eqn:E; simpl;
    rewrite broadcast_scalars; simpl; case_bool_decide; simplify_map_eq; done.
Qed.

Lemma cached_getitem name g n :
  cached n (scalars_getitem name g).2 = cached n g.
Proof.
  unfold scalars_getitem, cached.
  destruct (scalars g !! name) as [history|] eqn:E; simpl; [done|].
  destruct (decide (name = n)) as [->|]; simplify_map_eq; done.
Qed.

Lemma cached_perform c ge n :
  cached n (perform c ge).1 =
  cached n ge.1 ++ recorded n [c].
Proof.
  destruct c as [tr name val | tr h | name | name]; simpl.
  - unfold Monitor.add_scalar. cbn [Monitor._add_scalar monitor].
    replace (match match val with NpInteger z => Py (JInt z) | _ => val end with
             | NpFloating f => Py (JFloat f)
             | _ => match val with NpInteger z => Py (JInt z) | _ => val end
             end) with (handed val) by (by destruct val).
    rewrite cached_add_scalar. case_bool_decide; [done | by rewrite app_nil_r].
  - cbn [Monitor.on monitor]. unfold on, cached.
    by rewrite broadcast_scalars, app_nil_r.
  - unfold get_latest. pose proof (cached_getitem name ge.1 n) as Hc.
    destruct (scalars_getitem name ge.1) as [history g']. simpl in *.
    rewrite app_nil_r. by destruct (last history) as [[]|].
  - unfold get_history. pose proof (cached_getitem name ge.1 n) as Hc.
    destruct (scalars_getitem name ge.1) as [history g']. simpl in *.
    by rewrite app_nil_r.
Qed.

Lemma recorded_app n l1 l2 : recorded n (l1 ++ l2) = recorded n l1 ++ recorded n l2.
Proof.
  induction l1 as [|[tr name val| | |] l1 IH]; simpl; try done.
  case_bool_decide; simpl; by rewrite IH.
Qed.

Lemma cached_perform_all calls ge n :
  cached n (perform_all calls ge).1 = cached n ge.1 ++ recorded n calls.
Proof.
  revert ge. induction calls as [|c calls IH]; intros ge; simpl.
  - by rewrite app_nil_r.
  - rewrite IH, cached_perform, <- app_assoc. f_equal.
    by rewrite <- (recorded_app n [c] calls).
Qed.

Lemma get_history_cached name (g : Monitors.t S) :
  (get_history name g).1 = Ok (cached name g).
Proof.
  unfold get_history, scalars_getitem, cached.
  by destruct (scalars g !! name).
Qed.

Lemma get_latest_cached name (g : Monitors.t S) :
  (get_latest name g).1 =
  match last (cached name g) with
  | Some (_, val) => Ok val
  | None => Raise IndexError
  end.
Proof.
  unfold get_latest, scalars_getitem, cached.
  destruct (scalars g !! name) as [history|]; simpl; [|done].
  by destruct (last history) as [[]|].
Qed.

Lemma recorded_steps n calls :
  map fst (recorded n calls) `sublist_of` steps_of calls.
Proof.
  induction calls as [|[tr name val| | |] calls IH]; simpl; try done.
  - case_bool_decide; simpl; by constructor.
  - by constructor.
Qed.

Lemma StronglySorted_sublist (l1 l2 : list Z) :
  l1 `sublist_of` l2 -> StronglySorted Z.le l2 -> StronglySorted Z.le l1.
Proof.
  induction 1 as [|x l1 l2 Hsub IH|x l1 l2 Hsub IH]; intros Hs; [done| |].
  - apply StronglySorted_cons in Hs as [Hall Hs]. apply StronglySorted_cons.
    split; [|by apply IH]. rewrite Forall_forall in Hall |- *.
    intros y Hy. apply Hall. by apply (elem_of_sublist l1).
  - apply StronglySorted_cons in Hs as [_ Hs]. by apply IH.
Qed.

Lemma never_added_recorded name calls :
  Forall (fun c => forall tr val, c <> AddScalar tr name val) calls ->
  recorded name calls = [].
Proof.
  induction 1 as [|[tr n val| | |] calls Hc _ IH]; simpl; try done.
  case_bool_decide; [|done]. subst n. by destruct (Hc tr val).
Qed.

(** *** The three claims about the cache *)

(** C3, as the code has it.  After any calls on a new group,
    [get_history name] returns one entry per [add_scalar] call for [name]:
    the global step of the call and the value handed over, in call order,
    whatever triggers happened in between.  The steps of the entries do not
    decrease when the trainer's global step does not decrease from call to
    call. *)
Theorem get_history_one_entry_per_add_scalar
    (ms : list S) (e : env) (calls : list call) (name : string) :
  (get_history name (perform_all calls (__init__ ms, e)).1).1
    = Ok (recorded name calls) /\
  (StronglySorted Z.le (steps_of calls) ->
   StronglySorted Z.le (map fst (recorded name calls))).
Proof.
  split.
  - by rewrite get_history_cached, cached_perform_all.
  - apply StronglySorted_sublist, recorded_steps.
Qed.

(** C9, as the code has it.  For a name no [add_scalar] call recorded,
    [get_latest] raises ([IndexError], on the empty list the
    [defaultdict] supplies) and [get_history] returns the empty list. *)
Theorem never_recorded_latest_raises_history_empty
    (ms : list S) (e : env) (calls : list call) (name : string) :
  Forall (fun c => forall tr val, c <> AddScalar tr name val) calls ->
  (get_latest name (perform_all calls (__init__ ms, e)).1).1 = Raise IndexError /\
  (get_history name (perform_all calls (__init__ ms, e)).1).1 = Ok [].
Proof.
  intros Hnever.
  rewrite get_latest_cached, get_history_cached, cached_perform_all.
  by rewrite (never_added_recorded _ _ Hnever).
Qed.

(** C5, as the code has it.  [_add_scalar] appends the entry to the
    history of [name] first.  When the handler of a member raises, the
    exception leaves [_add_scalar]: the members after it keep the state
    they had (the value is not forwarded to them), and the cache keeps the
    new entry and everything it held. *)
Theorem _add_scalar_caches_then_stops_at_failure
    (name : string) (val : pyval) (tr : Trainer.t) (g : Monitors.t S) (e : env)
    (ms1 ms2 ms1' : list S) (m m' : S) (e1 e2 : env) (x : exn) :
  monitors g = ms1 ++ m :: ms2 ->
  for_monitors (Monitor.add_scalar name val tr) ms1 e = (Ok tt, (ms1', e1)) ->
  Monitor.add_scalar name val tr m e1 = (Raise x, (m', e2)) ->
  exists g',
    _add_scalar name val tr g e = (Raise x, (g', e2)) /\
    monitors g' = ms1' ++ m' :: ms2 /\
    cached name g' = cached name g ++ [(Trainer.global_step tr, val)] /\
    (forall n, n <> name -> cached n g' = cached n g).
Proof.
  intros Hms Hbefore Hraise.
  pose proof (cached_add_scalar name val tr g e) as Hcache.
  revert Hcache. unfold _add_scalar at 1 2.
  destruct (scalars_getitem name g) as [history g0] eqn:Eg.
  assert (Hg0 : monitors g0 = monitors g).
  { unfold scalars_getitem in Eg. destruct (scalars g !! name); by simplify_eq. }
  unfold broadcast. cbn [monitors scalars]. rewrite Hg0, Hms.
  rewrite (for_monitors_stops _ _ _ _ _ _ _ _ _ _ Hbefore Hraise).
  intros Hcache. eexists. split; [reflexivity|]. split; [done|]. split.
  - specialize (Hcache name). by rewrite bool_decide_eq_true_2 in Hcache.
  - intros n Hn. specialize (Hcache n). by rewrite bool_decide_eq_false_2 in Hcache.
Qed.

End Members.

(** *** Concrete groups *)

(** The two monitor classes of the file that keep scalars, as members of
    one group. *)
Inductive sink :=
| Writer (w : JSONWriter.t)
| Printer (p : ScalarPrinter.t).

Definition as_writer (f : Monitor.method JSONWriter.t) (w : JSONWriter.t)
    : env -> result unit * (sink * env) := fun e =>
  let '(r, (w', e')) := f w e in (r, (Writer w', e')).

Definition as_printer (f : Monitor.method ScalarPrinter.t) (p : ScalarPrinter.t)
    : env -> result unit * (sink * env) := fun e =>
  let '(r, (p', e')) := f p e in (r, (Printer p', e')).

Definition sink_monitor (float_of_str : string -> result float64) : Monitor.impl sink := {|
  Monitor._add_scalar := fun name val tr s =>
    match s with
    | Writer w => as_writer (JSONWriter._add_scalar float_of_str name val tr) w
    | Printer p => as_printer (ScalarPrinter._add_scalar float_of_str name val tr) p
    end;
  Monitor._add_image := fun _ _ _ => Monitor.pass;
  Monitor.on := fun h tr s =>
    match s with
    | Writer w => as_writer (JSONWriter.on h tr) w
    | Printer p => as_printer (ScalarPrinter.on h tr) p
    end
|}.

(** For the runs below, which convert no string: a parser that rejects
    every string. *)
Definition no_literal : string -> result float64 := fun _ => Raise ValueError.

Definition env0 : env :=
  {| fs := ∅; log := []; logger_dir := "log"; now := "0101-000000"; faults := [] |}.

(** The trainer during step [i] of the first epoch, three steps an epoch. *)
Definition at_step (i : Z) : Trainer.t := Trainer.mk 1 (Some i) i 3 1 None.

(** Two values for one name at step 1, then the step's trigger. *)
Definition two_values_one_step : list call :=
  [AddScalar (at_step 1) "loss" (Py (JInt 1));
   AddScalar (at_step 1) "loss" (Py (JInt 2));
   Hook (at_step 1) Monitor.trigger_step].

(** C3 as stated fails: two values added at one step give two entries,
    where one entry per step with a trigger would give one. *)
Lemma history_has_an_entry_per_call :
  (get_history "loss" (perform_all two_values_one_step (__init__ [tt], env0)).1).1
    = Ok [(1%Z, Py (JInt 1)); (1%Z, Py (JInt 2))] /\
  history_by_triggers "loss" None two_values_one_step = [(1%Z, Py (JInt 2))].
Proof. split; reflexivity. Qed.

Lemma get_history_one_entry_per_add_scalar_witness :
  StronglySorted Z.le (map fst (recorded "loss" two_values_one_step)).
Proof.
  apply (proj2 (get_history_one_entry_per_add_scalar [tt] env0 two_values_one_step "loss")).
  simpl. repeat constructor; lia.
Defined.

(** C9 as stated fails: [get_history] of a name never recorded does not
    fail, it returns the empty list. *)
Lemma get_history_of_unknown_name_returns :
  (get_history "loss" (__init__ [tt])).1 = Ok [].
Proof. reflexivity. Qed.

Lemma never_recorded_latest_raises_history_empty_witness :
  (get_latest "acc" (perform_all two_values_one_step (__init__ [tt], env0)).1).1
    = Raise IndexError /\
  (get_history "acc" (perform_all two_values_one_step (__init__ [tt], env0)).1).1 = Ok [].
Proof.
  apply (never_recorded_latest_raises_history_empty [tt] env0 two_values_one_step "acc").
  unfold two_values_one_step. repeat constructor; discriminate.
Defined.

(** A printer that has seen nothing yet. *)
Definition printer : ScalarPrinter.t := ScalarPrinter.__init__ true false None None.

(** A printer, a [JSONWriter] whose [_before_train] has not run yet, and
    another printer. *)
Definition printer_writer_printer : Monitors.t sink :=
  __init__ [Printer printer; Writer None; Printer printer].

(** C5 as stated fails: the writer raises ([AttributeError], it has no
    [_stat_now] yet), the exception leaves [add_scalar], and the printer
    after the writer never gets the value, which the printer before it
    has got. *)
Lemma add_scalar_failure_stops_forwarding :
  Monitor.add_scalar (H := monitor (H := sink_monitor no_literal))
    "loss" (Py (JInt 1)) (at_step 1) printer_writer_printer env0
  = (Raise AttributeError,
     ({| monitors :=
           [Printer (ScalarPrinter.with_dic {["loss" := float_of_Z 1]} printer);
            Writer None;
            Printer printer];
         scalars := {["loss" := [(1%Z, Py (JInt 1))]]} |}, env0)).
Proof. by vm_compute. Qed.

Lemma _add_scalar_caches_then_stops_at_failure_witness :
  exists g',
    _add_scalar (H := sink_monitor no_literal)
      "loss" (Py (JInt 1)) (at_step 1) printer_writer_printer env0
    = (Raise AttributeError, (g', env0)) /\
    monitors g'
    = [Printer (ScalarPrinter.with_dic (<["loss" := float_of_Z 1]> ∅) printer)]
      ++ Writer None :: [Printer printer] /\
    cached "loss" g' = cached "loss" printer_writer_printer ++ [(1%Z, Py (JInt 1))] /\
    (forall n, n <> "loss" -> cached n g' = cached n printer_writer_printer).
Proof.
  apply (_add_scalar_caches_then_stops_at_failure (H := sink_monitor no_literal)
           "loss" (Py (JInt 1)) (at_step 1) printer_writer_printer env0
           [Printer printer] [Printer printer] _ (Writer None) (Writer None) env0 env0);
    reflexivity.
Defined.

End MonitorsFacts.

(** ** Facts about [JSONWriter] *)

Module JSONWriterFacts.
Import JSONWriter.

(** The history record [_trigger] appends: the pending values stamped with
    the trainer's [epoch_num] and [global_step]. *)
Definition stamped (tr : Trainer.t) (stat_now : gmap string json) : json :=
  JDict (<["global_step" := JInt (Trainer.global_step tr)]>
           (<["epoch_num" := JInt (Trainer.epoch_num tr)]> stat_now)).

(** C8.  With an empty pending buffer [_trigger] does nothing.  With a
    non-empty one it appends the stamped buffer to the history, empties
    the buffer and writes the history.  Whatever the first call did, a
    second call right after it returns and changes neither the writer nor
    the environment (the files, the log). *)
Theorem _trigger_idempotent (tr tr' : Trainer.t) (a : attrs) (e : env) :
  (size (_stat_now a) = 0 -> _trigger tr (Some a) e = (Ok tt, (Some a, e))) /\
  (forall fname, size (_stat_now a) <> 0 -> _fname a = Some fname ->
   _trigger tr (Some a) e =
     (Ok tt,
      (Some {| _stats := _stats a ++ [stamped tr (_stat_now a)];
               _stat_now := ∅;
               _last_gs := _last_gs a;
               _fname := Some fname |},
       write_stat (_stats a ++ [stamped tr (_stat_now a)]) fname e))) /\
  (forall r w1 e1, _trigger tr (Some a) e = (r, (w1, e1)) ->
   _trigger tr' w1 e1 = (Ok tt, (w1, e1))).
Proof.
  unfold _trigger. split_and!.
  - by intros ->.
  - intros fname Hsize Hfname. destruct (size (_stat_now a)); [done|].
    unfold with_stat_now, with_stats, stamped. simpl. by rewrite Hfname.
  - intros r w1 e1. destruct (size (_stat_now a)) eqn:Hsize.
    + intros [= <- <- <-]. by rewrite Hsize.
    + simpl. destruct (_fname a); intros [= <- <- <-]; simpl; by rewrite map_size_empty.
Qed.

Lemma length_append (s1 s2 : string) :
  String.length (s1 +:+ s2) = String.length s1 + String.length s2.
Proof. induction s1 as [|c s1 IH]; simpl; [done | by rewrite IH]. Qed.

Lemma tmp_is_another_file (fname : string) : fname +:+ ".tmp" <> fname.
Proof.
  intros Heq. apply (f_equal String.length) in Heq.
  rewrite length_append in Heq. simpl in Heq. lia.
Qed.

(** The live file is never written in part: after [write_stat], it holds
    what it held or the whole new history. *)
Lemma write_stat_live_file (stats : list json) (fname : string) (e : env) :
  fs (write_stat stats fname e) !! fname = fs e !! fname \/
  fs (write_stat stats fname e) !! fname = Some (Json (JList stats)).
Proof.
  pose proof (tmp_is_another_file fname) as Htmp.
  destruct e as [files lg dir clock fl].
  unfold write_stat, open_w, dump, move, next_fault, with_fs, logger.
  destruct fl as [|[] [|[] [|[] ?]]]; simpl; simplify_map_eq; auto.
Qed.

(** C7, where the code fails.  When [stats.json] holds a history and the
    trainer has no [starting_epoch] attribute, as is the case for a
    [Trainer] of [trainer.py], [_before_train] raises [AttributeError]:
    it neither takes up the history nor moves the file. *)
Theorem _before_train_needs_starting_epoch
    (tr : Trainer.t) (w : t) (e : env) (stats : list json) :
  fs e !! path_join (logger_dir e) FILENAME = Some (Json (JList stats)) ->
  Trainer.starting_epoch tr = None ->
  _before_train tr w e =
    (Raise AttributeError,
     (Some {| _stats := []; _stat_now := ∅; _last_gs := -1;
              _fname := Some (path_join (logger_dir e) FILENAME) |}, e)).
Proof.
  intros Hfile Hstart. unfold _before_train, load_existing_json.
  by rewrite Hfile, Hstart.
Qed.

(** X15.  What [_before_train] does for a trainer that has a
    [starting_epoch]: it takes up the history when the last record's epoch
    is the predecessor or cannot be read, and otherwise moves the file to
    the backup name and starts with an empty history. *)
Lemma _before_train_with_starting_epoch
    (tr : Trainer.t) (w : t) (e : env) (stats : list json) (starting_epoch : Z) :
  fs e !! path_join (logger_dir e) FILENAME = Some (Json (JList stats)) ->
  Trainer.starting_epoch tr = Some starting_epoch ->
  let fname := path_join (logger_dir e) FILENAME in
  let backup := path_join (logger_dir e) (FILENAME +:+ "." +:+ now e) in
  let fresh := {| _stats := []; _stat_now := ∅; _last_gs := -1; _fname := Some fname |} in
  (forall record d E,
     last stats = Some record -> record = JDict d -> d !! "epoch_num" = Some (JInt E) ->
     (E + 1)%Z = starting_epoch ->
     _before_train tr w e =
       (Ok tt, (Some (with_stats stats fresh),
                logger INFO (FoundExistingJSON (logger_dir e)) e))) /\
  (forall x, last_epoch_plus_one stats = Raise x ->
     _before_train tr w e =
       (Ok tt, (Some (with_stats stats fresh),
                logger INFO (FoundExistingJSON (logger_dir e)) e))) /\
  (forall record d E,
     last stats = Some record -> record = JDict d -> d !! "epoch_num" = Some (JInt E) ->
     (E + 1)%Z <> starting_epoch ->
     faults e = [] ->
     exists e',
       _before_train tr w e = (Ok tt, (Some fresh, e')) /\
       fs e' = <[backup := Json (JList stats)]> (delete fname (fs e)) /\
       log e' = log e ++ [(WARNING, NotThePredecessor (JInt E) starting_epoch);
                          (WARNING, ResumeAdvice);
                          (WARNING, WillBackup starting_epoch backup)]).
Proof.
  intros Hfile Hstart fname backup fresh.
  unfold _before_train, load_existing_json. rewrite Hfile, Hstart.
  split_and!.
  - intros record d E Hlast -> Hd <-. unfold last_epoch_plus_one.
    rewrite Hlast. simpl. rewrite Hd. simpl. by rewrite Z.eqb_refl.
  - intros x ->. done.
  - intros record d E Hlast -> Hd Hne Hfaults. unfold last_epoch_plus_one.
    rewrite Hlast. simpl. rewrite Hd. simpl.
    destruct (Z.eqb_spec (E + 1) starting_epoch) as [|_]; [done|].
    unfold move, next_fault, logger. simpl. rewrite Hfaults. simpl. rewrite Hfile. simpl.
    eexists. split; [reflexivity|]. simpl. split; [done|].
    rewrite <- !app_assoc. simpl. by replace (E + 1 + -1)%Z with E by lia.
Qed.

End JSONWriterFacts.

(** ** Facts about [Trainer.load_state_dict] *)

Module StateDictFacts.
Import Trainer.

Section AnyValues.
Context {V : Type}.
Variable callbacks_load_state_dict : V -> V -> result unit * V.

Lemma pop_returns key (d d' : gmap string V) v :
  pop key d = (Ok v, d') -> d !! key = Some v /\ d' = delete key d.
Proof. unfold pop. destruct (d !! key); by intros [= <- <-]. Qed.


(** A dictionary that lacks a key makes its [pop] raise [KeyError]: the
    keys popped before are gone, the others stay. *)
Lemma load_state_dict_missing_epoch_num (self state_dict : gmap string V) :
  state_dict !! "epoch_num" = None ->
  load_state_dict callbacks_load_state_dict self state_dict
    = (Raise KeyError, (self, state_dict)).
Proof. intros Hnone. unfold load_state_dict, pop. by rewrite Hnone. Qed.

End AnyValues.

(** A checkpoint, and a trainer that [train] has given its callbacks; the
    callbacks object keeps the state it is given. *)
Definition checkpoint : gmap string json :=
  <["epoch_num" := JInt 2]> (<["local_step" := JInt 3]> (<["global_step" := JInt 7]>
    (<["callbacks" := JDict ∅]> (<["model" := JStr "weights"]> ∅)))).

Definition trained : gmap string json := <["callbacks" := JNull]> ∅.

Definition keep_state (callbacks state : json) : result unit * json := (Ok tt, state).



(** The checkpoint of the witness after the call: only the model is left. *)
Example checkpoint_after_loading :
  (load_state_dict keep_state trained checkpoint).2.2 = {["model" := JStr "weights"]}.
Proof. by vm_compute. Qed.

End StateDictFacts.

(** ** The per-step trigger and the trainer's step numbers *)

Module TriggerStepFacts.
Import Trainer.

(** The [local_step] the trainer has at each call of
    [self.callbacks.trigger_step()]. *)
Definition trigger_step_numbers (tr : list event) : list (option Z) :=
  omap (fun ev =>
          match ev with
          | Called callbacks_trigger_step t _ => Some (local_step t)
          | _ => None
          end) tr.

Section StepNumbers.
Context {W : Type}.
Variable hooks : site -> t -> W -> result unit * W.

Lemma bind_returned {A B} (m : @M W A) (f : A -> @M W B) σ b σ' :
  (m ≫= f) σ = (Ok b, σ') ->
  exists a σ1, m σ = (Ok a, σ1) /\ f a σ1 = (Ok b, σ').
Proof.
  rewrite TrainerFacts.bind_unfold. destruct (m σ) as [[a|e] σ1]; [|done].
  intros Hf. by exists a, σ1.
Qed.

Lemma call_returned s σ u σ' :
  call hooks s σ = (Ok u, σ') ->
  self σ' = self σ /\ trace σ' = trace σ ++ [Called s (self σ) None].
Proof.
  unfold call. destruct (hooks s (self σ) (world σ)) as [[[]|e] w]; [|done].
  destruct u. by intros [= <-].
Qed.

(** A step that returns has called [trigger_step] once, with [local_step]
    one more than before. *)
Lemma step_numbers σ σ' k :
  local_step (self σ) = Some k ->
  step hooks σ = (Ok tt, σ') ->
  trigger_step_numbers (trace σ') = trigger_step_numbers (trace σ) ++ [Some (k + 1)%Z] /\
  local_step (self σ') = Some (k + 1)%Z.
Proof.
  intros Hk. unfold step, incr_local_step, before_step, run_step, after_step, trigger_step.
  rewrite !TrainerFacts.bind_unfold. cbn [read]. rewrite Hk. cbn [assign self trace world].
  intros Hstep.
  repeat match goal with
         | H : (_ ≫= _) _ = (Ok _, _) |- _ =>
             apply bind_returned in H as (? & ? & ? & H)
         end.
  repeat match goal with
         | H : call _ _ _ = (Ok _, _) |- _ => apply call_returned in H as [? ?]
         | H : read _ _ = (Ok _, _) |- _ => unfold read in H; injection H as <- <-
         | H : assign _ _ = (Ok _, _) |- _ => unfold assign in H; injection H as <- <-
         end.
  simpl in *.
  repeat match goal with
         | H : trace _ = _ |- _ => rewrite H; clear H
         | H : self _ = _ |- _ => rewrite H in *; clear H
         end.
  unfold trigger_step_numbers. rewrite !omap_app. simpl.
  rewrite !app_nil_r. done.
Qed.

(** X5.  One pass over [n] batches that returns has called [trigger_step]
    with [local_step] going from 1 to [n]: the last step of an epoch has
    [local_step = steps_per_epoch], not [steps_per_epoch - 1]. *)
Lemma for_dataflow_numbers_steps n σ σ' k :
  local_step (self σ) = Some k ->
  for_dataflow hooks n σ = (Ok tt, σ') ->
  trigger_step_numbers (trace σ') =
    trigger_step_numbers (trace σ) ++ map (fun i => Some (k + Z.of_nat i)%Z) (seq 1 n).
Proof.
  revert σ k. induction n as [|n IH]; intros σ k Hk; simpl.
  - intros [= <-]. by rewrite app_nil_r.
  - intros Hrun. apply bind_returned in Hrun as ([] & σ1 & Hstep & Hrest).
    destruct (step_numbers _ _ _ Hk Hstep) as [Htrace Hk1].
    rewrite (IH _ _ Hk1 Hrest), Htrace, <- app_assoc. f_equal. simpl. f_equal.
    rewrite <- (seq_shift n 1), map_map. apply map_ext. intros i. f_equal. lia.
Qed.

End StepNumbers.

(** C1, where the code fails.  At the trigger of step [i] of an epoch of
    [n] steps the trainer has [local_step = i], and both monitors test
    [local_step != steps_per_epoch - 1]: the per-step trigger of the
    [JSONWriter], and that of a [ScalarPrinter] with both triggers
    enabled, is skipped at step [n - 1] and fires at every other step, the
    last step [n] included. *)
Theorem trigger_step_skips_the_step_before_last (tr : Trainer.t) (n i : Z) :
  steps_per_epoch tr = n ->
  local_step tr = Some i ->
  (forall w e,
     JSONWriter._trigger_step tr w e =
     if (i =? n - 1)%Z then (Ok tt, (w, e)) else JSONWriter._trigger tr w e) /\
  (forall p e,
     ScalarPrinter._enable_step p = true -> ScalarPrinter._enable_epoch p = true ->
     ScalarPrinter._trigger_step tr p e =
     if (i =? n - 1)%Z then (Ok tt, (p, e)) else ScalarPrinter._trigger tr p e).
Proof.
  intros Hn Hi. split.
  - intros w e. unfold JSONWriter._trigger_step. rewrite Hi, Hn.
    by destruct (i =? n - 1)%Z.
  - intros p e Hstep Hepoch. unfold ScalarPrinter._trigger_step.
    rewrite Hstep, Hepoch, Hi, Hn. by destruct (i =? n - 1)%Z.
Qed.

(** At the last of three steps both per-step triggers fire. *)
Lemma trigger_step_skips_the_step_before_last_witness :
  (forall w e,
     JSONWriter._trigger_step (MonitorsFacts.at_step 3) w e
     = JSONWriter._trigger (MonitorsFacts.at_step 3) w e) /\
  (forall p e,
     ScalarPrinter._enable_step p = true -> ScalarPrinter._enable_epoch p = true ->
     ScalarPrinter._trigger_step (MonitorsFacts.at_step 3) p e
     = ScalarPrinter._trigger (MonitorsFacts.at_step 3) p e).
Proof.
  apply (trigger_step_skips_the_step_before_last (MonitorsFacts.at_step 3) 3 3);
    reflexivity.
Defined.

(** *** Whole runs with a [JSONWriter] *)

(** Modelled from the spec: the callbacks of a run, whose group (class
    [Callbacks]) is not among the sources and forwards each hook to its
    members in order.  Here the members are a [JSONWriter] and a callback
    that records the number of the step as ["loss"] in [after_step]. *)
Definition writer_callbacks (s : site) (tr : Trainer.t) (we : JSONWriter.t * env)
    : result unit * (JSONWriter.t * env) :=
  match s with
  | callbacks_before_train => JSONWriter._before_train tr we.1 we.2
  | callbacks_after_step =>
      Monitor.add_scalar (H := JSONWriter.monitor MonitorsFacts.no_literal)
        "loss" (Py (JInt (global_step tr))) tr we.1 we.2
  | callbacks_trigger_step => JSONWriter._trigger_step tr we.1 we.2
  | callbacks_trigger_epoch => JSONWriter._trigger_epoch tr we.1 we.2
  | _ => (Ok tt, we)
  end.

(** The record of a step: its loss, stamped. *)
Definition record_of (epoch step loss : Z) : json :=
  JDict (<["global_step" := JInt step]> (<["epoch_num" := JInt epoch]>
           (<["loss" := JFloat (float_of_Z loss)]> ∅))).

(** One epoch of three steps.  The per-step trigger flushes at steps 1 and
    3 and is skipped at step 2, whose value the value of step 3 replaces in
    the buffer: the history has no record of step 2, and the record of the
    last step was written by the per-step trigger, not the epoch's. *)
Example three_steps_lose_the_second :
  exists σ,
    train writer_callbacks TrainerFacts.blank (TrainerFacts.batches 3) 1 None None
      (None, MonitorsFacts.env0) = Some (Ok tt, σ) /\
    trigger_step_numbers (trace σ) = [Some 1%Z; Some 2%Z; Some 3%Z] /\
    JSONWriter._stats <$> (world σ).1 = Some [record_of 1 1 1; record_of 1 3 3] /\
    fs (world σ).2 !! "log/stats.json"
      = Some (Json (JList [record_of 1 1 1; record_of 1 3 3])).
Proof. eexists. split; [vm_compute; reflexivity|]. by vm_compute. Qed.

(** A history of one epoch in [stats.json]. *)
Definition resumed : env :=
  {| fs := {["log/stats.json" := Json (JList [record_of 1 3 3])]};
     log := []; logger_dir := "log"; now := "0101-000000"; faults := [] |}.

(** With a history on disk, a run of the [Trainer] of [trainer.py] ends in
    [before_train]: the writer raises [AttributeError], no step runs, and
    the file is as it was. *)
Example resuming_run_raises :
  exists σ,
    train writer_callbacks TrainerFacts.blank (TrainerFacts.batches 3) 2 None None
      (None, resumed) = Some (Raise AttributeError, σ) /\
    trigger_step_numbers (trace σ) = [] /\
    fs (world σ).2 = fs resumed.
Proof. eexists. split; [vm_compute; reflexivity|]. by vm_compute. Qed.

Lemma _before_train_needs_starting_epoch_witness :
  JSONWriter._before_train TrainerFacts.blank None resumed =
    (Raise AttributeError,
     (Some {| JSONWriter._stats := []; JSONWriter._stat_now := ∅;
              JSONWriter._last_gs := -1;
              JSONWriter._fname := Some "log/stats.json" |}, resumed)).
Proof.
  apply (JSONWriterFacts._before_train_needs_starting_epoch
           TrainerFacts.blank None resumed [record_of 1 3 3]); reflexivity.
Defined.

(** A writer with a pending value, during step 1. *)
Definition pending_loss : JSONWriter.attrs :=
  {| JSONWriter._stats := []; JSONWriter._stat_now := {["loss" := JFloat (float_of_Z 1)]};
     JSONWriter._last_gs := -1; JSONWriter._fname := Some "log/stats.json" |}.

Lemma _trigger_idempotent_witness :
  JSONWriter._trigger (MonitorsFacts.at_step 1) (Some pending_loss) MonitorsFacts.env0 =
    (Ok tt,
     (Some {| JSONWriter._stats := [record_of 1 1 1]; JSONWriter._stat_now := ∅;
              JSONWriter._last_gs := -1; JSONWriter._fname := Some "log/stats.json" |},
      JSONWriter.write_stat [record_of 1 1 1] "log/stats.json" MonitorsFacts.env0)).
Proof.
  apply (proj1 (proj2 (JSONWriterFacts._trigger_idempotent
                         (MonitorsFacts.at_step 1) (MonitorsFacts.at_step 1)
                         pending_loss MonitorsFacts.env0)) "log/stats.json");
    [by vm_compute | reflexivity].
Defined.

End TriggerStepFacts.

(** ** Runs of the training loop in which every hook returns *)

Module TrainerRuns.
Import Trainer.

(** The hooks of one step, in the order [train] calls them. *)
Definition step_sites : list site :=
  [_before_step; callbacks_before_step; _run_step; callbacks_after_step;
   _after_step; callbacks_trigger_step; _trigger_step].

Definition before_epoch_sites (dataflow : DataLoader) : list site :=
  (if distributed_sampler dataflow then [sampler_set_epoch] else [])
  ++ [_before_epoch; callbacks_before_epoch].

(** Whether the epoch-level trigger fires in epoch [e]. *)
Definition fires (eval_interval : option Z) (e : Z) : bool :=
  match eval_interval with
  | Some k => (e `mod` k =? 0)%Z
  | None => true
  end.

Definition end_of_epoch_sites (eval_interval : option Z) (e : Z) : list site :=
  [callbacks_after_epoch; _after_epoch]
  ++ (if fires eval_interval e then [callbacks_trigger_epoch; _trigger_epoch] else []).

(** Calls that returned, all made with the same trainer attributes. *)
Definition returned (self : t) (sites : list site) : list event :=
  map (fun s => Called s self None) sites.

(** The trainer [i] steps after [self]. *)
Definition advanced (self : t) (k : Z) (i : Z) : t :=
  with_global_step (global_step self + i) (with_local_step (k + i) self).

(** The calls of [n] steps that start from [self] with [local_step = k]. *)
Definition steps_schedule (self : t) (k : Z) (n : nat) : list event :=
  flat_map (fun i => returned (advanced self k (Z.of_nat i)) step_sites) (seq 1 n).

(** The calls of the epoch that starts when the trainer is [self]. *)
Definition epoch_schedule (dataflow : DataLoader) (n : nat) (eval_interval : option Z)
    (self : t) : list event :=
  let start := with_local_step 0 (with_epoch_num (epoch_num self + 1) self) in
  returned start (before_epoch_sites dataflow)
  ++ steps_schedule start 0 n
  ++ returned (advanced start 0 (Z.of_nat n))
       (end_of_epoch_sites eval_interval (epoch_num self + 1)).




Lemma advanced_advanced self k i j :
  advanced (advanced self k i) (k + i) j = advanced self k (i + j).
Proof.
  destruct self. unfold advanced, with_global_step, with_local_step. simpl.
  f_equal; [f_equal|]; lia.
Qed.

Lemma flat_map_map {A B C} (f : B -> list C) (g : A -> B) (l : list A) :
  flat_map f (map g l) = flat_map (fun a => f (g a)) l.
Proof. induction l as [|a l IH]; simpl; [done | by rewrite IH]. Qed.

Section AllReturn.
Context {W : Type}.
Variable hooks : site -> t -> W -> result unit * W.
Hypothesis hooks_return : forall s t w, (hooks s t w).1 = Ok tt.

(** A piece of the loop that returns, keeps the trainer's attributes and
    makes the calls [sites]. *)
Definition calls (m : @M W unit) (sites : list site) : Prop :=
  forall σ, exists σ',
    m σ = (Ok tt, σ') /\ self σ' = self σ /\
    trace σ' = trace σ ++ returned (self σ) sites.

Lemma calls_call s : calls (call hooks s) [s].
Proof.
  intros σ. unfold call. pose proof (hooks_return s (self σ) (world σ)) as Hr.
  destruct (hooks s (self σ) (world σ)) as [r w]. simpl in Hr. subst r.
  by eexists.
Qed.

Lemma calls_ret : calls (mret tt) [].
Proof. intros σ. exists σ. by rewrite app_nil_r. Qed.

Lemma calls_bind m1 m2 sites1 sites2 :
  calls m1 sites1 -> calls m2 sites2 -> calls (m1 ;; m2) (sites1 ++ sites2).
Proof.
  intros H1 H2 σ. destruct (H1 σ) as (σ1 & E1 & Hs1 & Ht1).
  destruct (H2 σ1) as (σ2 & E2 & Hs2 & Ht2).
  exists σ2. rewrite TrainerFacts.bind_unfold, E1. split; [done|].
  split; [congruence|]. unfold returned in *.
  by rewrite Ht2, Ht1, Hs1, map_app, app_assoc.
Qed.

Lemma calls_before_epoch df : calls (before_epoch hooks df) (before_epoch_sites df).
Proof.
  unfold before_epoch, before_epoch_sites.
  apply calls_bind; [destruct (distributed_sampler df); [apply calls_call | apply calls_ret]|].
  apply (calls_bind _ _ [_] [_]); apply calls_call.
Qed.

Lemma calls_end_of_epoch ei e :
  ei <> Some 0%Z ->
  forall σ, epoch_num (self σ) = e -> exists σ',
    (after_epoch hooks ;;
     match ei with
     | Some k =>
         e ← read epoch_num;
         if (k =? 0)%Z then raise ZeroDivisionError
         else if (e `mod` k =? 0)%Z then trigger_epoch hooks else mret tt
     | None => trigger_epoch hooks
     end) σ = (Ok tt, σ') /\
    self σ' = self σ /\
    trace σ' = trace σ ++ returned (self σ) (end_of_epoch_sites ei e).
Proof.
  intros Hei σ He.
  assert (Hafter : calls (after_epoch hooks) [callbacks_after_epoch; _after_epoch]).
  { apply (calls_bind _ _ [_] [_]); apply calls_call. }
  assert (Htrig : calls (trigger_epoch hooks) [callbacks_trigger_epoch; _trigger_epoch]).
  { apply (calls_bind _ _ [_] [_]); apply calls_call. }
  unfold end_of_epoch_sites, fires.
  destruct ei as [k|].
  - destruct (Hafter σ) as (σ1 & E1 & Hs1 & Ht1).
    rewrite TrainerFacts.bind_unfold, E1, TrainerFacts.bind_unfold. cbn [read].
    rewrite Hs1, He.
    destruct (Z.eqb_spec k 0) as [->|_]; [done|].
    destruct (e `mod` k =? 0)%Z.
    + destruct (Htrig σ1) as (σ2 & E2 & Hs2 & Ht2). exists σ2.
      split; [done|]. split; [congruence|].
      unfold returned in *. by rewrite Ht2, Ht1, Hs1, map_app, app_assoc.
    + exists σ1. split; [done|]. split; [done|]. by rewrite Ht1, app_nil_r.
  - by apply calls_bind.
Qed.

(** A step advances [local_step] and [global_step] by one and then calls
    the hooks of [step_sites], in that order and with those counters. *)
Lemma step_calls_in_order (σ : @run W) (k : Z) :
  local_step (self σ) = Some k ->
  exists σ',
    step hooks σ = (Ok tt, σ') /\
    self σ' = advanced (self σ) k 1 /\
    trace σ' = trace σ ++ returned (advanced (self σ) k 1) step_sites.
Proof.
  intros Hk.
  assert (Hrest : calls (before_step hooks ;; run_step hooks ;; after_step hooks ;;
                         trigger_step hooks) step_sites).
  { unfold before_step, run_step, after_step, trigger_step.
    apply (calls_bind _ _ [_; _] [_; _; _; _; _]);
      [apply (calls_bind _ _ [_] [_]); apply calls_call|].
    apply (calls_bind _ _ [_] [_; _; _; _]); [apply calls_call|].
    apply (calls_bind _ _ [_; _] [_; _]);
      apply (calls_bind _ _ [_] [_]); apply calls_call. }
  assert (Hincr : incr_local_step σ
                  = (Ok tt, {| self := with_local_step (k + 1) (self σ);
                               world := world σ; trace := trace σ |})).
  { unfold incr_local_step. rewrite TrainerFacts.bind_unfold. cbn [read]. by rewrite Hk. }
  destruct (Hrest {| self := advanced (self σ) k 1; world := world σ; trace := trace σ |})
    as (σ' & E & Hs & Ht).
  exists σ'. split; [|by rewrite Ht, Hs].
  unfold step. rewrite TrainerFacts.bind_unfold, Hincr, TrainerFacts.bind_unfold.
  cbn [read]. rewrite TrainerFacts.bind_unfold. cbn [assign self world trace].
  exact E.
Qed.

Lemma for_dataflow_schedule n (σ : @run W) k :
  local_step (self σ) = Some k ->
  exists σ',
    for_dataflow hooks n σ = (Ok tt, σ') /\
    self σ' = advanced (self σ) k (Z.of_nat n) /\
    trace σ' = trace σ ++ steps_schedule (self σ) k n.
Proof.
  revert σ k. induction n as [|n IH]; intros σ k Hk.
  - exists σ. split; [done|]. unfold steps_schedule. simpl. rewrite app_nil_r.
    split; [|done]. destruct (self σ) eqn:E. simpl in Hk. subst.
    unfold advanced, with_global_step, with_local_step. simpl.
    by rewrite !Z.add_0_r.
  - destruct (step_calls_in_order σ k Hk) as (σ1 & E1 & Hs1 & Ht1).
    assert (Hk1 : local_step (self σ1) = Some (k + 1)%Z) by (by rewrite Hs1).
    destruct (IH σ1 (k + 1)%Z Hk1) as (σ' & E & Hs & Ht).
    exists σ'. cbn [for_dataflow]. rewrite TrainerFacts.bind_unfold, E1.
    split; [exact E|]. split.
    + rewrite Hs, Hs1, advanced_advanced. f_equal. lia.
    + rewrite Ht, Ht1, <- app_assoc. f_equal.
      unfold steps_schedule. cbn [seq flat_map]. f_equal.
      rewrite <- (seq_shift n 1), flat_map_map.
      apply flat_map_ext. intros i. rewrite Hs1, advanced_advanced. do 2 f_equal. lia.
Qed.

Lemma calls_for_each {A} (f : A -> site) (l : list A) :
  calls (for_each (fun a => call hooks (f a)) l) (map f l).
Proof.
  induction l as [|a l IH]; simpl; [apply calls_ret|].
  apply (calls_bind _ _ [_]); [apply calls_call | apply IH].
Qed.

(** The trainer when [train] reaches [before_train]. *)
Definition at_before_train (self : t) : t :=
  with_global_step 0 (with_epoch_num 0 self).

Definition prologue_schedule (summary : list string) (self : t) : list event :=
  returned self (callbacks_set_trainer :: map summary_set_trainer summary)
  ++ returned (at_before_train self) [_before_train; callbacks_before_train].

Lemma prologue_schedule_returns summary (σ : @run W) :
  exists σ',
    prologue hooks summary σ = (Ok tt, σ') /\
    self σ' = at_before_train (self σ) /\
    trace σ' = trace σ ++ prologue_schedule summary (self σ).
Proof.
  assert (H1 : calls (call hooks callbacks_set_trainer ;;
                      for_each (fun s => call hooks (summary_set_trainer s)) summary)
                 (callbacks_set_trainer :: map summary_set_trainer summary)).
  { apply (calls_bind _ _ [_]); [apply calls_call | apply calls_for_each]. }
  assert (H2 : calls (before_train hooks) [_before_train; callbacks_before_train]).
  { apply (calls_bind _ _ [_] [_]); apply calls_call. }
  destruct (H1 σ) as (σ1 & E1 & Hs1 & Ht1).
  destruct (H2 {| self := at_before_train (self σ1); world := world σ1; trace := trace σ1 |})
    as (σ' & E & Hs & Ht).
  exists σ'. unfold prologue, prologue_schedule. split; [|split].
  - rewrite TrainerFacts.bind_unfold in E1 |- *.
    destruct (call hooks callbacks_set_trainer σ) as [[[]|x] σ0]; [|done].
    rewrite TrainerFacts.bind_unfold, E1.
    rewrite TrainerFacts.bind_unfold. cbn [assign]. rewrite TrainerFacts.bind_unfold.
    cbn [assign self world trace]. exact E.
  - by rewrite Hs, <- Hs1.
  - rewrite Ht. simpl. by rewrite Ht1, Hs1, <- app_assoc.
Qed.

(** The trainer after the epoch that started when it was [self]. *)
Definition after_epoch_trainer (n : nat) (self : t) : t :=
  advanced (with_local_step 0 (with_epoch_num (epoch_num self + 1) self)) 0 (Z.of_nat n).

Lemma epoch_schedule_returns df n ei (σ : @run W) :
  ei <> Some 0%Z ->
  exists σ',
    epoch hooks df n ei σ = (Ok tt, σ') /\
    self σ' = after_epoch_trainer n (self σ) /\
    trace σ' = trace σ ++ epoch_schedule df n ei (self σ).
Proof.
  intros Hei.
  pose (start := with_local_step 0 (with_epoch_num (epoch_num (self σ) + 1) (self σ))).
  destruct (calls_before_epoch df {| self := start; world := world σ; trace := trace σ |})
    as (σ1 & E1 & Hs1 & Ht1).
  simpl in Hs1, Ht1.
  destruct (for_dataflow_schedule n σ1 0) as (σ2 & E2 & Hs2 & Ht2); [by rewrite Hs1|].
  destruct (calls_end_of_epoch ei (epoch_num (self σ) + 1) Hei σ2) as (σ' & E & Hs & Ht).
  { rewrite Hs2, Hs1. by destruct (self σ). }
  exists σ'. split; [|split].
  - unfold epoch. rewrite TrainerFacts.bind_unfold. cbn [read].
    rewrite TrainerFacts.bind_unfold. cbn [assign]. rewrite TrainerFacts.bind_unfold.
    cbn [assign self world trace]. fold start.
    rewrite TrainerFacts.bind_unfold, E1, TrainerFacts.bind_unfold, E2. exact E.
  - by rewrite Hs, Hs2, Hs1.
  - rewrite Ht, Ht2, Ht1, Hs2, Hs1. unfold epoch_schedule. fold start.
    by rewrite <- !app_assoc.
Qed.

(** The trainer after [count] epochs, and the calls of those epochs. *)
Fixpoint after_epochs (n count : nat) (self : t) : t :=
  match count with
  | O => self
  | S rest => after_epochs n rest (after_epoch_trainer n self)
  end.

Fixpoint epochs_schedule (df : DataLoader) (n : nat) (ei : option Z) (count : nat)
    (self : t) : list event :=
  match count with
  | O => []
  | S rest =>
      epoch_schedule df n ei self
      ++ epochs_schedule df n ei rest (after_epoch_trainer n self)
  end.

Lemma while_epochs_schedule fuel df n ei (σ : @run W) :
  ei <> Some 0%Z ->
  Z.to_nat (num_epochs (self σ) - epoch_num (self σ)) <= fuel ->
  exists σ',
    while_epochs hooks fuel df n ei σ = Some (Ok tt, σ') /\
    self σ' = after_epochs n (Z.to_nat (num_epochs (self σ) - epoch_num (self σ))) (self σ) /\
    trace σ' = trace σ ++
      epochs_schedule df n ei (Z.to_nat (num_epochs (self σ) - epoch_num (self σ))) (self σ).
Proof.
  intros Hei. revert σ. induction fuel as [|fuel IH]; intros σ Hfuel.
  - simpl. destruct (Z.ltb_spec (epoch_num (self σ)) (num_epochs (self σ))); [lia|].
    exists σ. replace (Z.to_nat _) with 0 by lia. simpl. by rewrite app_nil_r.
  - simpl. destruct (Z.ltb_spec (epoch_num (self σ)) (num_epochs (self σ))) as [Hlt|Hge].
    + destruct (epoch_schedule_returns df n ei σ Hei) as (σ1 & E1 & Hs1 & Ht1).
      rewrite E1.
      assert (He1 : epoch_num (self σ1) = (epoch_num (self σ) + 1)%Z)
        by (rewrite Hs1; by destruct (self σ)).
      assert (Hn1 : num_epochs (self σ1) = num_epochs (self σ))
        by (rewrite Hs1; by destruct (self σ)).
      destruct (IH σ1) as (σ' & E & Hs & Ht); [lia|].
      exists σ'. split; [exact E|].
      replace (Z.to_nat (num_epochs (self σ) - epoch_num (self σ)))
        with (S (Z.to_nat (num_epochs (self σ1) - epoch_num (self σ1)))) by lia.
      simpl. rewrite Hs, Ht, Ht1, Hs1, <- app_assoc. done.
    + exists σ. replace (Z.to_nat _) with 0 by lia. simpl. by rewrite app_nil_r.
Qed.

(** The trace of a whole run and the trainer at its end. *)
Definition run_schedule (df : DataLoader) (n : nat) (ne : Z) (ei : option Z)
    (summary : list string) (self : t) : list event :=
  prologue_schedule summary self
  ++ epochs_schedule df n ei (Z.to_nat ne) (at_before_train self)
  ++ returned (after_epochs n (Z.to_nat ne) (at_before_train self))
       [callbacks_after_train; _after_train].

Lemma train_schedule_returns (self0 : t) df n ne ei splits (w : W) :
  len df = Ok n ->
  ei <> Some 0%Z ->
  let self1 := with_num_epochs ne (with_steps_per_epoch (Z.of_nat n) self0) in
  let summary := match splits with None => ["0"] | Some ss => dict_keys [] ss end in
  exists σ,
    train hooks self0 df ne ei splits w = Some (Ok tt, σ) /\
    self σ = after_epochs n (Z.to_nat ne) (at_before_train self1) /\
    trace σ = run_schedule df n ne ei summary self1.
Proof.
  intros Hlen Hei self1 summary. unfold train. rewrite Hlen. fold self1 summary.
  unfold try_block.
  destruct (prologue_schedule_returns summary {| self := self1; world := w; trace := [] |})
    as (σ1 & E1 & Hs1 & Ht1).
  rewrite E1. simpl in Hs1, Ht1.
  assert (Hcount : Z.to_nat (num_epochs (self σ1) - epoch_num (self σ1)) = Z.to_nat ne).
  { rewrite Hs1. unfold self1. destruct self0. simpl. f_equal. lia. }
  destruct (while_epochs_schedule (Z.to_nat ne) df n ei σ1 Hei) as (σ2 & E2 & Hs2 & Ht2);
    [lia|].
  rewrite E2. rewrite Hcount in Hs2, Ht2.
  assert (Hafter : calls (after_train hooks) [callbacks_after_train; _after_train]).
  { apply (calls_bind _ _ [_] [_]); apply calls_call. }
  destruct (Hafter σ2) as (σ & E & Hs & Ht).
  exists σ. unfold except_finally. rewrite E. split; [done|]. split.
  - by rewrite Hs, Hs2, Hs1.
  - rewrite Ht, Ht2, Ht1, Hs2, Hs1. unfold run_schedule. by rewrite <- !app_assoc.
Qed.

End AllReturn.

(** *** Counting on schedules *)


















Section WholeRuns.
Context {W : Type}.
Variable hooks : site -> t -> W -> result unit * W.
Hypothesis hooks_return : forall s t w, (hooks s t w).1 = Ok tt.





End WholeRuns.

(** *** Concrete runs *)

Lemma counting_returns s self w : (TrainerFacts.counting s self w).1 = Ok tt.
Proof. by destruct s. Qed.




(** With [eval_interval = 2] the trigger fires in epochs 2 and 4 of 5. *)
Example trigger_every_second_epoch :
  List.filter (fires (Some 2%Z)) (seqZ 1 5) = [2%Z; 4%Z].
Proof. reflexivity. Qed.


(** A pass over two batches in the first epoch. *)
Definition epoch_started : @run nat :=
  {| self := mk 1 (Some 0%Z) 0 2 1 None; world := 0; trace := [] |}.

Lemma for_dataflow_numbers_steps_witness :
  TriggerStepFacts.trigger_step_numbers
    (trace (for_dataflow TrainerFacts.counting 2 epoch_started).2)
  = TriggerStepFacts.trigger_step_numbers (trace epoch_started)
    ++ map (fun i => Some (0 + Z.of_nat i)%Z) (seq 1 2).
Proof.
  apply (TriggerStepFacts.for_dataflow_numbers_steps TrainerFacts.counting 2
           epoch_started _ 0); [reflexivity | by vm_compute].
Defined.

End TrainerRuns.

(** ** Saving and restoring the trainer's state *)

Module StateDictRoundTrip.
Import Trainer.

Section AnyValues.
Context {V : Type}.
Variable callbacks_state_dict : V -> result V * V.
Variable callbacks_load_state_dict : V -> V -> result unit * V.



End AnyValues.

Section Saving.
Context {V : Type}.
Variable callbacks_state_dict : V -> result V * V.

(** X7.  [state_dict] returns exactly when the trainer has its [callbacks],
    whose [state_dict] returns, and the three counters: it raises on a
    trainer that has no [local_step] yet. *)
Theorem state_dict_returns_iff (self : gmap string V) :
  (exists d self', state_dict callbacks_state_dict self = (Ok d, self')) <->
  (exists callbacks state callbacks',
     self !! "callbacks" = Some callbacks /\
     callbacks_state_dict callbacks = (Ok state, callbacks')) /\
  (forall key, key ∈ ["epoch_num"; "local_step"; "global_step"] -> is_Some (self !! key)).
Proof.
  unfold state_dict. split.
  - intros (d & self' & Hsave).
    destruct (self !! "callbacks") as [cbs|] eqn:Hcbs; [|done].
    destruct (callbacks_state_dict cbs) as [[state|x] cbs'] eqn:Hstate; [|done].
    rewrite !lookup_insert_ne in Hsave by done.
    destruct (self !! "epoch_num") as [e|] eqn:He; [|done].
    destruct (self !! "local_step") as [l|] eqn:Hl; [|done].
    destruct (self !! "global_step") as [g|] eqn:Hg; [|done].
    split; [by exists cbs, state, cbs'|].
    intros key Hkey. repeat (apply elem_of_cons in Hkey as [->|Hkey]);
      [..|by apply elem_of_nil in Hkey]; eauto.
  - intros [(cbs & state & cbs' & Hcbs & Hstate) Hkeys].
    destruct (Hkeys "epoch_num") as [e He]; [set_solver|].
    destruct (Hkeys "local_step") as [l Hl]; [set_solver|].
    destruct (Hkeys "global_step") as [g Hg]; [set_solver|].
    rewrite Hcbs, Hstate. rewrite !lookup_insert_ne by done.
    rewrite He, Hl, Hg. by eexists _, _.
Qed.

End Saving.

Section Loading.
Context {V : Type}.
Variable callbacks_load_state_dict : V -> V -> result unit * V.

(** X8.  On a trainer that has no [callbacks] attribute (its [train] has
    not run), [load_state_dict] of a dictionary with the three counters
    raises [AttributeError] after it has popped them: the trainer has the
    three counters of the dictionary, and the dictionary has lost them and
    kept every other key, ["callbacks"] included. *)
Theorem load_state_dict_before_train
    (self state_dict : gmap string V) :
  self !! "callbacks" = None ->
  (forall key, key ∈ ["epoch_num"; "local_step"; "global_step"] ->
     is_Some (state_dict !! key)) ->
  exists self',
    load_state_dict callbacks_load_state_dict self state_dict =
      (Raise AttributeError,
       (self', delete "global_step" (delete "local_step" (delete "epoch_num" state_dict)))) /\
    (forall key, key ∈ ["epoch_num"; "local_step"; "global_step"] ->
       self' !! key = state_dict !! key) /\
    delete "global_step" (delete "local_step" (delete "epoch_num" state_dict))
      !! "callbacks" = state_dict !! "callbacks".
Proof.
  intros Hnone Hkeys.
  destruct (Hkeys "epoch_num") as [e He]; [set_solver|].
  destruct (Hkeys "local_step") as [l Hl]; [set_solver|].
  destruct (Hkeys "global_step") as [g Hg]; [set_solver|].
  unfold load_state_dict, pop. rewrite He. simplify_map_eq.
  eexists. split; [done|]. split.
  - intros key Hkey. repeat (apply elem_of_cons in Hkey as [->|Hkey]);
      [..|by apply elem_of_nil in Hkey]; by simplify_map_eq.
  - done.
Qed.

End Loading.

(** The attributes of a trainer in its third step of the second epoch,
    whose callbacks have the state [JStr "best"]. *)
Definition running : gmap string json :=
  <["callbacks" := JStr "best"]> (<["epoch_num" := JInt 2]> (<["local_step" := JInt 3]>
    (<["global_step" := JInt 7]> ∅))).

(** Callbacks whose state is the object itself. *)
Definition own_state (callbacks : json) : result json * json := (Ok callbacks, callbacks).


Lemma state_dict_returns_iff_witness :
  exists d self', state_dict own_state running = (Ok d, self').
Proof.
  apply (proj2 (state_dict_returns_iff own_state running)). split.
  - exists (JStr "best"), (JStr "best"), (JStr "best"). by vm_compute.
  - intros key Hkey. repeat (apply elem_of_cons in Hkey as [->|Hkey]);
      [..|by apply elem_of_nil in Hkey]; eexists; vm_compute; reflexivity.
Defined.

Lemma load_state_dict_before_train_witness :
  exists self',
    load_state_dict StateDictFacts.keep_state ∅ StateDictFacts.checkpoint =
      (Raise AttributeError,
       (self', delete "global_step" (delete "local_step"
                 (delete "epoch_num" StateDictFacts.checkpoint)))) /\
    (forall key, key ∈ ["epoch_num"; "local_step"; "global_step"] ->
       self' !! key = StateDictFacts.checkpoint !! key) /\
    delete "global_step" (delete "local_step" (delete "epoch_num" StateDictFacts.checkpoint))
      !! "callbacks" = StateDictFacts.checkpoint !! "callbacks".
Proof.
  apply (load_state_dict_before_train StateDictFacts.keep_state ∅ StateDictFacts.checkpoint).
  - reflexivity.
  - intros key Hkey. repeat (apply elem_of_cons in Hkey as [->|Hkey]);
      [..|by apply elem_of_nil in Hkey]; eexists; vm_compute; reflexivity.
Defined.

End StateDictRoundTrip.

(** ** [JSONWriter]: the history in memory and the file on disk *)

Module JSONWriterHistory.
Import JSONWriter.

(** What a run does with a writer after [_before_train], each call with
    the trainer's attributes at the time. *)
Inductive call :=
| AddScalar (tr : Trainer.t) (name : string) (val : pyval)
| TriggerStep (tr : Trainer.t)
| TriggerEpoch (tr : Trainer.t)
| Trigger (tr : Trainer.t).

(** A history record carries the two counters as integers. *)
Definition is_record (j : json) : Prop :=
  exists d epoch_num global_step,
    j = JDict d /\
    d !! "epoch_num" = Some (JInt epoch_num) /\
    d !! "global_step" = Some (JInt global_step).

(** An entry of the log that [write_stat] makes. *)
Definition is_write_error (entry : level * message) : Prop :=
  entry = (ERROR, ExceptionInWriteStat).

(** The calls that may append a record. *)
Definition triggers (calls : list call) : nat :=
  length (List.filter (fun c => match c with AddScalar _ _ _ => false | _ => true end) calls).

(** The files other than the live file and its temporary file. *)
Definition other_file (fname path : string) : Prop :=
  path <> fname /\ path <> fname +:+ ".tmp".

(** Every outcome of [write_stat]: the live file is replaced by the whole
    document, the temporary file is gone and nothing is logged; or the live
    file is as it was and one error is logged. *)
Lemma write_stat_outcome (stats : list json) (fname : string) (e : env) :
  ((fs (write_stat stats fname e) !! fname = Some (Json (JList stats)) /\
    fs (write_stat stats fname e) !! (fname +:+ ".tmp") = None /\
    log (write_stat stats fname e) = log e /\
    true ∉ take 3 (faults e)) \/
   (fs (write_stat stats fname e) !! fname = fs e !! fname /\
    log (write_stat stats fname e) = log e ++ [(ERROR, ExceptionInWriteStat)] /\
    true ∈ take 3 (faults e))) /\
  (forall path, other_file fname path ->
     fs (write_stat stats fname e) !! path = fs e !! path) /\
  logger_dir (write_stat stats fname e) = logger_dir e /\
  faults (write_stat stats fname e) `suffix_of` faults e.
Proof.
  pose proof (JSONWriterFacts.tmp_is_another_file fname) as Htmp.
  destruct e as [files lg dir clock fl].
  unfold write_stat, open_w, dump, move, next_fault, with_fs, logger, other_file.
  destruct fl as [|[] [|[] [|[] fl]]]; simpl; simplify_map_eq;
    (split; [|split; [intros path [? ?]; by simplify_map_eq|split; [done|]]]).
  all: try (solve [repeat first [reflexivity | apply suffix_cons_r]]).
  all: try (right; split_and!; [done..|]; rewrite ?elem_of_cons; tauto).
  all: try (left; split_and!; [done..|]; rewrite ?elem_of_cons, ?elem_of_nil; intuition congruence).
  all: try (by apply suffix_nil).
Qed.

Lemma with_stat_now_same (a : attrs) : with_stat_now (_stat_now a) a = a.
Proof. by destruct a. Qed.

(** [_trigger] on a writer that has its attributes: nothing with an empty
    buffer; otherwise the record is appended and, when the writer has its
    [_fname], the history written. *)
Lemma _trigger_outcome (tr : Trainer.t) (a : attrs) (e : env) :
  (size (_stat_now a) = 0 /\ snd (_trigger tr (Some a) e) = (Some a, e)) \/
  (size (_stat_now a) <> 0 /\
   snd (_trigger tr (Some a) e) =
     (Some (with_stat_now ∅
              (with_stats (_stats a ++ [JSONWriterFacts.stamped tr (_stat_now a)]) a)),
      match _fname a with
      | Some fname =>
          write_stat (_stats a ++ [JSONWriterFacts.stamped tr (_stat_now a)]) fname e
      | None => e
      end)).
Proof.
  unfold _trigger. destruct (size (_stat_now a)) eqn:Hsize; [by left|right].
  split; [done|]. simpl. by destruct (_fname a).
Qed.

Lemma stamped_is_record (tr : Trainer.t) (m : gmap string json) :
  is_record (JSONWriterFacts.stamped tr m).
Proof.
  exists (<["global_step" := JInt (Trainer.global_step tr)]>
            (<["epoch_num" := JInt (Trainer.epoch_num tr)]> m)),
    (Trainer.epoch_num tr), (Trainer.global_step tr).
  by simplify_map_eq.
Qed.

Section Calls.
Variable float_of_str : string -> result float64.

(** The writer and the environment after one call; an exception a call
    raises is the caller's to handle, the effects made before it stay. *)
Definition perform (c : call) (we : t * env) : t * env :=
  match c with
  | AddScalar tr name val => snd (_add_scalar float_of_str name val tr we.1 we.2)
  | TriggerStep tr => snd (_trigger_step tr we.1 we.2)
  | TriggerEpoch tr => snd (_trigger_epoch tr we.1 we.2)
  | Trigger tr => snd (_trigger tr we.1 we.2)
  end.

Definition perform_all (calls : list call) (we : t * env) : t * env :=
  foldl (fun we c => perform c we) we calls.

(** One call changes the buffer only, or is a trigger that appends the
    stamped buffer. *)
Lemma perform_outcome (c : call) (a : attrs) (e : env) :
  (exists m, perform c (Some a, e) = (Some (with_stat_now m a), e)) \/
  (exists tr,
     triggers [c] = 1 /\
     perform c (Some a, e) =
       (Some (with_stat_now ∅
                (with_stats (_stats a ++ [JSONWriterFacts.stamped tr (_stat_now a)]) a)),
        match _fname a with
        | Some fname =>
            write_stat (_stats a ++ [JSONWriterFacts.stamped tr (_stat_now a)]) fname e
        | None => e
        end)).
Proof.
  assert (Hsame : exists m, (Some a, e) = (Some (with_stat_now m a), e)).
  { exists (_stat_now a). by rewrite with_stat_now_same. }
  destruct c as [tr name val | tr | tr | tr]; unfold perform; cbn [fst snd].
  - left. unfold _add_scalar. destruct (py_float float_of_str val); [|done].
    by eexists.
  - unfold _trigger_step. destruct (Trainer.local_step tr); [|by left].
    destruct (negb _); [|by left].
    destruct (_trigger_outcome tr a e) as [[_ ->] | [_ ->]]; [by left|right].
    by exists tr.
  - unfold _trigger_epoch.
    destruct (_trigger_outcome tr a e) as [[_ ->] | [_ ->]]; [by left|right].
    by exists tr.
  - destruct (_trigger_outcome tr a e) as [[_ ->] | [_ ->]]; [by left|right].
    by exists tr.
Qed.

Lemma triggers_cons (c : call) (calls : list call) :
  triggers (c :: calls) = triggers [c] + triggers calls.
Proof. unfold triggers. simpl. by destruct c. Qed.

Lemma perform_all_appends (calls : list call) (a : attrs) (e : env) :
  exists a' added,
    (perform_all calls (Some a, e)).1 = Some a' /\ _stats a' = _stats a ++ added.
Proof.
  revert a e. induction calls as [|c calls IH]; intros a e.
  - exists a, []. by rewrite app_nil_r.
  - change (perform_all (c :: calls) (Some a, e))
      with (perform_all calls (perform c (Some a, e))).
    destruct (perform_outcome c a e) as [[m ->] | (tr & Hc & ->)].
    + apply (IH (with_stat_now m a) e).
    + match goal with |- context [perform_all calls (Some ?a1, ?e1)] =>
        destruct (IH a1 e1) as (a' & added & Ha' & Hstats)
      end.
      exists a', (JSONWriterFacts.stamped tr (_stat_now a) :: added).
      split; [done|]. rewrite Hstats. simpl. by rewrite <- app_assoc.
Qed.

(** X9.  Whatever a run calls on a writer that has its attributes, and
    whatever fails, the history in memory only grows: the writer keeps its
    attributes, the records it had stay in place, what was appended are
    records with an integer [epoch_num] and [global_step], at most one for
    each trigger call, and [_fname] and [_last_gs] never change. *)
Theorem history_only_grows (calls : list call) (a : attrs) (e : env) :
  exists a' added,
    (perform_all calls (Some a, e)).1 = Some a' /\
    _stats a' = _stats a ++ added /\
    Forall is_record added /\
    length added <= triggers calls /\
    _fname a' = _fname a /\
    _last_gs a' = _last_gs a.
Proof.
  revert a e. induction calls as [|c calls IH]; intros a e.
  - exists a, []. simpl. rewrite app_nil_r. split_and!; done.
  - change (perform_all (c :: calls) (Some a, e))
      with (perform_all calls (perform c (Some a, e))).
    rewrite triggers_cons.
    destruct (perform_outcome c a e) as [[m ->] | (tr & Hc & ->)].
    + destruct (IH (with_stat_now m a) e) as (a' & added & Ha' & Hstats & Hrec & Hlen & Hf & Hg).
      exists a', added. split_and!; try done. lia.
    + match goal with |- context [perform_all calls (Some ?a1, ?e1)] =>
        destruct (IH a1 e1) as (a' & added & Ha' & Hstats & Hrec & Hlen & Hf & Hg)
      end.
      exists a', (JSONWriterFacts.stamped tr (_stat_now a) :: added).
      split_and!; try done.
      * rewrite Hstats. simpl. by rewrite <- app_assoc.
      * constructor; [apply stamped_is_record | done].
      * simpl. lia.
Qed.

(** X10.  The live file is never left with a part of a history.  After
    any calls and any failures of the disk, the file [_fname] is as it was
    before the calls or holds a whole history the writer had at some time
    since: one that extends the history before the calls and that the
    history after them extends.  The calls touch no file but this one and
    its temporary file, log nothing but write errors, and leave the logger
    directory alone. *)
Theorem live_file_holds_a_whole_history
    (calls : list call) (a : attrs) (e : env) (fname : string) :
  _fname a = Some fname ->
  exists a' e',
    perform_all calls (Some a, e) = (Some a', e') /\
    (fs e' !! fname = fs e !! fname \/
     exists written,
       fs e' !! fname = Some (Json (JList written)) /\
       _stats a `prefix_of` written /\ written `prefix_of` _stats a') /\
    (forall path, other_file fname path -> fs e' !! path = fs e !! path) /\
    (exists errors, log e' = log e ++ errors /\ Forall is_write_error errors) /\
    logger_dir e' = logger_dir e.
Proof.
  revert a e. induction calls as [|c calls IH]; intros a e Hfname.
  - exists a, e. split_and!; try done; [by left|]. exists []. by rewrite app_nil_r.
  - change (perform_all (c :: calls) (Some a, e))
      with (perform_all calls (perform c (Some a, e))).
    destruct (perform_outcome c a e) as [[m ->] | (tr & Hc & ->)].
    + destruct (IH (with_stat_now m a) e Hfname) as (a' & e' & -> & Hfile & Hother & Hlog & Hdir).
      by exists a', e'.
    + rewrite Hfname.
      set (stats1 := _stats a ++ [JSONWriterFacts.stamped tr (_stat_now a)]).
      set (a1 := with_stat_now ∅ (with_stats stats1 a)).
      set (e1 := write_stat stats1 fname e).
      destruct (IH a1 e1 Hfname) as (a' & e' & Hrun & Hfile & Hother & Hlog & Hdir).
      destruct (perform_all_appends calls a1 e1) as (a2 & added & Ha2 & Hstats).
      rewrite Hrun in Ha2. injection Ha2 as <-. simpl in Hstats.
      destruct (write_stat_outcome stats1 fname e)
        as (Hwrite & Hother1 & Hdir1 & _). fold e1 in Hwrite, Hother1, Hdir1.
      assert (H01 : _stats a `prefix_of` stats1) by (by apply prefix_app_r).
      assert (H1' : stats1 `prefix_of` _stats a') by (rewrite Hstats; by apply prefix_app_r).
      exists a', e'. split; [done|]. split_and!.
      * destruct Hfile as [Hfile | (written & Hfile & Hpre & Hpost)].
        -- rewrite Hfile.
           destruct Hwrite as [(Hlive & _) | (Hlive & _)]; [right | by left].
           by exists stats1.
        -- right. exists written. split; [done|]. split; [|done]. by etrans.
      * intros path Hpath. by rewrite Hother, Hother1.
      * destruct Hlog as (errors & -> & Herrors).
        destruct Hwrite as [(_ & _ & -> & _) | (_ & -> & _)].
        -- by exists errors.
        -- exists ((ERROR, ExceptionInWriteStat) :: errors).
           rewrite <- app_assoc. split; [done|]. by constructor.
      * by rewrite Hdir.
Qed.

(** X11.  While the disk does not fail, the live file follows the history:
    after any calls, either no record was appended and no file was touched,
    or the file [_fname] holds the whole history the writer has, and the
    temporary file is gone.  Nothing is logged. *)
Theorem live_file_follows_the_history
    (calls : list call) (a : attrs) (e : env) (fname : string) :
  _fname a = Some fname ->
  faults e = [] ->
  exists a' e',
    perform_all calls (Some a, e) = (Some a', e') /\
    ((_stats a' = _stats a /\ fs e' = fs e) \/
     (fs e' !! fname = Some (Json (JList (_stats a'))) /\
      fs e' !! (fname +:+ ".tmp") = None)) /\
    log e' = log e /\
    faults e' = [].
Proof.
  revert a e. induction calls as [|c calls IH]; intros a e Hfname Hfaults.
  - exists a, e. split_and!; try done. by left.
  - change (perform_all (c :: calls) (Some a, e))
      with (perform_all calls (perform c (Some a, e))).
    destruct (perform_outcome c a e) as [[m ->] | (tr & Hc & ->)].
    + destruct (IH (with_stat_now m a) e Hfname Hfaults) as (a' & e' & -> & Hfile & Hlog).
      by exists a', e'.
    + rewrite Hfname.
      set (stats1 := _stats a ++ [JSONWriterFacts.stamped tr (_stat_now a)]).
      set (a1 := with_stat_now ∅ (with_stats stats1 a)).
      set (e1 := write_stat stats1 fname e).
      destruct (write_stat_outcome stats1 fname e)
        as (Hwrite & _ & _ & Hsuffix). fold e1 in Hwrite, Hsuffix.
      rewrite Hfaults in Hwrite, Hsuffix. apply suffix_nil_inv in Hsuffix.
      destruct Hwrite as [(Hlive & Htmp & Hlog1 & _) | (_ & _ & Hin)];
        [|by apply elem_of_nil in Hin].
      destruct (IH a1 e1 Hfname Hsuffix) as (a' & e' & Hrun & Hfile & Hlog & Hfaults').
      exists a', e'. split; [done|]. split_and!; [|congruence|done].
      right. destruct Hfile as [[Hstats ->] | Hfile]; [|done].
      by rewrite Hstats.
Qed.

End Calls.

Section ReadingBack.
Variable int_of_str : string -> result Z.

(** X12.  What [_trigger] writes, [load_existing_json] reads back.  When
    the buffer holds a value, [_fname] is the file of the logger directory
    and the disk does not fail the three write operations, then after
    [_trigger] the file loads as the history the writer has, whose last
    record is the stamped buffer, and [load_existing_epoch_number] is the
    trainer's [epoch_num]. *)
Theorem _trigger_then_load_existing_json (tr : Trainer.t) (a : attrs) (e : env) :
  size (_stat_now a) <> 0 ->
  _fname a = Some (path_join (logger_dir e) FILENAME) ->
  true ∉ take 3 (faults e) ->
  exists a' e',
    _trigger tr (Some a) e = (Ok tt, (Some a', e')) /\
    _stats a' = _stats a ++ [JSONWriterFacts.stamped tr (_stat_now a)] /\
    load_existing_json e' = Ok (Some (_stats a')) /\
    load_existing_epoch_number int_of_str e' = Ok (Some (Trainer.epoch_num tr)).
Proof.
  intros Hsize Hfname Hfaults.
  unfold _trigger. destruct (size (_stat_now a)); [done|]. simpl. rewrite Hfname.
  fold (JSONWriterFacts.stamped tr (_stat_now a)).
  set (stats1 := _stats a ++ [JSONWriterFacts.stamped tr (_stat_now a)]).
  set (fname := path_join (logger_dir e) FILENAME).
  destruct (write_stat_outcome stats1 fname e) as (Hwrite & _ & Hdir & _).
  destruct Hwrite as [(Hlive & _) | (_ & _ & Hin)]; [|by destruct Hfaults].
  eexists _, _. split; [reflexivity|]. split; [done|].
  assert (Hload : load_existing_json (write_stat stats1 fname e) = Ok (Some stats1)).
  { unfold load_existing_json. rewrite Hdir. fold fname. by rewrite Hlive. }
  split; [done|].
  unfold load_existing_epoch_number. rewrite Hload. unfold stats1.
  rewrite last_snoc. unfold JSONWriterFacts.stamped. simpl. by simplify_map_eq.
Qed.

(** X13.  [load_existing_epoch_number] raises exactly when
    [load_existing_json] raises, and then the same exception: the [try]
    covers the indexing and the conversion only, so a file that is no JSON
    list is an error here too.  Without the file, with an empty list, and
    with a last record that has no [epoch_num], the result is [None]. *)
Theorem load_existing_epoch_number_raises_as_load_existing_json (e : env) :
  (forall x, load_existing_epoch_number int_of_str e = Raise x <->
             load_existing_json e = Raise x) /\
  (load_existing_json e = Ok None -> load_existing_epoch_number int_of_str e = Ok None) /\
  (load_existing_json e = Ok (Some []) ->
   load_existing_epoch_number int_of_str e = Ok None) /\
  (forall stats d,
     load_existing_json e = Ok (Some (stats ++ [JDict d])) -> d !! "epoch_num" = None ->
     load_existing_epoch_number int_of_str e = Ok None) /\
  (forall stats d z,
     load_existing_json e = Ok (Some (stats ++ [JDict d])) ->
     d !! "epoch_num" = Some (JInt z) ->
     load_existing_epoch_number int_of_str e = Ok (Some z)).
Proof.
  unfold load_existing_epoch_number. split_and!.
  - intros x. destruct (load_existing_json e) as [[stats|]|y];
      [|split; intros [=]; by subst..].
    destruct (last stats) as [record|]; [|split; intros [=]].
    destruct (json_getitem record "epoch_num") as [v|]; [|split; intros [=]].
    destruct (json_int int_of_str v); split; intros [=].
  - by intros ->.
  - by intros ->.
  - intros stats d -> Hd. rewrite last_snoc. simpl. by rewrite Hd.
  - intros stats d z -> Hd. rewrite last_snoc. simpl. by rewrite Hd.
Qed.

End ReadingBack.

(** X14.  [_before_train] without a history to take up.  Without the file
    [stats.json] it returns with an empty history and [_fname] set,
    whatever the trainer is, and touches nothing.  A file that is no JSON
    raises [ValueError] and a JSON document that is no list raises
    [AssertionError]: both leave [_before_train] before [_fname] is
    assigned, so the writer keeps the [_fname] it had, if any. *)
Theorem _before_train_without_a_history (tr : Trainer.t) (w : t) (e : env) :
  (fs e !! path_join (logger_dir e) FILENAME = None ->
   _before_train tr w e =
     (Ok tt,
      (Some {| _stats := []; _stat_now := ∅; _last_gs := -1;
               _fname := Some (path_join (logger_dir e) FILENAME) |}, e))) /\
  (fs e !! path_join (logger_dir e) FILENAME = Some NotJson ->
   _before_train tr w e =
     (Raise ValueError,
      (Some {| _stats := []; _stat_now := ∅; _last_gs := -1; _fname := w ≫= _fname |}, e))) /\
  (forall j,
     fs e !! path_join (logger_dir e) FILENAME = Some (Json j) ->
     (forall stats, j <> JList stats) ->
     _before_train tr w e =
       (Raise AssertionError,
        (Some {| _stats := []; _stat_now := ∅; _last_gs := -1; _fname := w ≫= _fname |}, e))).
Proof.
  unfold _before_train, load_existing_json. split_and!.
  - by intros ->.
  - by intros ->.
  - intros j -> Hj. destruct j; try done. by destruct (Hj l).
Qed.

(** *** Concrete runs *)

(** A writer after [_before_train] in a new logger directory. *)
Definition started : attrs :=
  {| _stats := []; _stat_now := ∅; _last_gs := -1; _fname := Some "log/stats.json" |}.

(** Two steps with a loss each, a flush after each of them. *)
Definition two_flushes : list call :=
  [AddScalar (MonitorsFacts.at_step 1) "loss" (Py (JInt 1));
   TriggerStep (MonitorsFacts.at_step 1);
   AddScalar (MonitorsFacts.at_step 2) "loss" (Py (JInt 2));
   Trigger (MonitorsFacts.at_step 2)].

(** A disk that fails the [json.dump] of the second flush. *)
Definition failing_disk : env :=
  {| fs := ∅; log := []; logger_dir := "log"; now := "0101-000000";
     faults := [false; false; false; false; true] |}.

(** For the runs below, which convert no string: a parser that rejects
    every string. *)
Definition no_int_literal : string -> result Z := fun _ => Raise ValueError.

(** A trainer that starts at epoch 5. *)
Definition restarted : Trainer.t := Trainer.mk 0 None 0 0 0 (Some 5%Z).

Lemma live_file_holds_a_whole_history_witness :
  exists a' e',
    perform_all MonitorsFacts.no_literal two_flushes (Some started, failing_disk)
      = (Some a', e') /\
    (fs e' !! "log/stats.json" = fs failing_disk !! "log/stats.json" \/
     exists written,
       fs e' !! "log/stats.json" = Some (Json (JList written)) /\
       _stats started `prefix_of` written /\ written `prefix_of` _stats a') /\
    (forall path, other_file "log/stats.json" path ->
       fs e' !! path = fs failing_disk !! path) /\
    (exists errors, log e' = log failing_disk ++ errors /\ Forall is_write_error errors) /\
    logger_dir e' = logger_dir failing_disk.
Proof.
  apply (live_file_holds_a_whole_history MonitorsFacts.no_literal two_flushes
           started failing_disk "log/stats.json").
  reflexivity.
Defined.

(** With the failing disk the file keeps the history of the first flush,
    the temporary file stays behind, and the error is logged. *)
Example second_flush_fails :
  exists a' e',
    perform_all MonitorsFacts.no_literal two_flushes (Some started, failing_disk)
      = (Some a', e') /\
    _stats a' = [TriggerStepFacts.record_of 1 1 1; TriggerStepFacts.record_of 1 2 2] /\
    fs e' !! "log/stats.json" = Some (Json (JList [TriggerStepFacts.record_of 1 1 1])) /\
    fs e' !! "log/stats.json.tmp" = Some NotJson /\
    log e' = [(ERROR, ExceptionInWriteStat)].
Proof. eexists _, _. split; [vm_compute; reflexivity|]. by vm_compute. Qed.

Lemma live_file_follows_the_history_witness :
  exists a' e',
    perform_all MonitorsFacts.no_literal two_flushes (Some started, MonitorsFacts.env0)
      = (Some a', e') /\
    ((_stats a' = _stats started /\ fs e' = fs MonitorsFacts.env0) \/
     (fs e' !! "log/stats.json" = Some (Json (JList (_stats a'))) /\
      fs e' !! ("log/stats.json" +:+ ".tmp") = None)) /\
    log e' = log MonitorsFacts.env0 /\
    faults e' = [].
Proof.
  apply (live_file_follows_the_history MonitorsFacts.no_literal two_flushes
           started MonitorsFacts.env0 "log/stats.json"); reflexivity.
Defined.

Lemma _trigger_then_load_existing_json_witness :
  exists a' e',
    _trigger (MonitorsFacts.at_step 1) (Some TriggerStepFacts.pending_loss) MonitorsFacts.env0
      = (Ok tt, (Some a', e')) /\
    _stats a' = _stats TriggerStepFacts.pending_loss ++
                [JSONWriterFacts.stamped (MonitorsFacts.at_step 1)
                   (_stat_now TriggerStepFacts.pending_loss)] /\
    load_existing_json e' = Ok (Some (_stats a')) /\
    load_existing_epoch_number no_int_literal e' = Ok (Some 1%Z).
Proof.
  apply (_trigger_then_load_existing_json no_int_literal (MonitorsFacts.at_step 1)
           TriggerStepFacts.pending_loss MonitorsFacts.env0).
  - by vm_compute.
  - reflexivity.
  - simpl. apply not_elem_of_nil.
Defined.

Lemma _before_train_with_starting_epoch_witness :
  exists e',
    _before_train restarted None TriggerStepFacts.resumed =
      (Ok tt, (Some started, e')) /\
    fs e' = <["log/stats.json.0101-000000" := Json (JList [TriggerStepFacts.record_of 1 3 3])]>
              (delete "log/stats.json" (fs TriggerStepFacts.resumed)) /\
    log e' = log TriggerStepFacts.resumed ++
             [(WARNING, NotThePredecessor (JInt 1) 5);
              (WARNING, ResumeAdvice);
              (WARNING, WillBackup 5 "log/stats.json.0101-000000")].
Proof.
  pose proof (JSONWriterFacts._before_train_with_starting_epoch
                restarted None TriggerStepFacts.resumed [TriggerStepFacts.record_of 1 3 3] 5
                eq_refl eq_refl) as (_ & _ & Hbackup).
  eapply (Hbackup (TriggerStepFacts.record_of 1 3 3) _ 1%Z);
    [reflexivity | reflexivity | vm_compute; reflexivity | lia | reflexivity].
Defined.

End JSONWriterHistory.

(** ** Facts about [ScalarPrinter] *)

Module ScalarPrinterFacts.
Import ScalarPrinter.

(** The order of [sorted]: strings compare by their characters. *)
Lemma leb_trans (s1 s2 s3 : string) :
  String.leb s1 s2 = true -> String.leb s2 s3 = true -> String.leb s1 s3 = true.
Proof.
  unfold String.leb. revert s2 s3.
  induction s1 as [|c1 s1 IH]; intros [|c2 s2] [|c3 s3]; simpl; try done.
  unfold Ascii.compare.
  destruct (N.compare_spec (Ascii.N_of_ascii c1) (Ascii.N_of_ascii c2)),
    (N.compare_spec (Ascii.N_of_ascii c2) (Ascii.N_of_ascii c3)),
    (N.compare_spec (Ascii.N_of_ascii c1) (Ascii.N_of_ascii c3));
    try done; try lia.
  apply IH.
Qed.

#[local] Instance by_name_trans :
  Transitive (fun a b : string * float64 => String.leb a.1 b.1 : Prop).
Proof.
  intros x y z Hxy Hyz. apply Is_true_true. apply Is_true_true in Hxy, Hyz.
  by apply (leb_trans _ y.1).
Qed.

#[local] Instance by_name_total :
  Total (fun a b : string * float64 => String.leb a.1 b.1 : Prop).
Proof.
  intros x y. destruct (String.leb_total x.1 y.1) as [H | H];
    [left | right]; by apply Is_true_true.
Qed.

Lemma sorted_sublist {A} (R : relation A) (l1 l2 : list A) :
  l1 `sublist_of` l2 -> StronglySorted R l2 -> StronglySorted R l1.
Proof.
  induction 1 as [|x l1 l2 Hsub IH|x l1 l2 Hsub IH]; intros Hs; [done| |].
  - apply StronglySorted_cons in Hs as [Hall Hs]. apply StronglySorted_cons.
    split; [|by apply IH]. rewrite Forall_forall in Hall |- *.
    intros y Hy. apply Hall. by apply (elem_of_sublist l1).
  - apply StronglySorted_cons in Hs as [_ Hs]. by apply IH.
Qed.

Lemma filter_sublist {A} (f : A -> bool) (l : list A) :
  List.filter f l `sublist_of` l.
Proof.
  induction l as [|x l IH]; simpl; [done|].
  destruct (f x); by constructor.
Qed.

Lemma match_regex_list_true (regexs : list regex) (name : string) :
  match_regex_list regexs name = true <-> exists r, r ∈ regexs /\ r name = true.
Proof.
  unfold match_regex_list. rewrite existsb_exists.
  split; intros (r & Hin & Hr); exists r; (split; [by apply list_elem_of_In | done]).
Qed.

(** A name the printer shows: some pattern of the whitelist, when there is
    a whitelist, finds a match in it, and no pattern of the blacklist
    does. *)
Definition printable (p : t) (name : string) : Prop :=
  (_whitelist p = None \/
   exists whitelist r, _whitelist p = Some whitelist /\ r ∈ whitelist /\ r name = true) /\
  (forall r, r ∈ _blacklist p -> r name = false).

(** X16.  [_trigger] returns and empties the buffer.  Its texts are the
    buffered values of the printable names, each name once, in the order of
    the names; it logs them in one message, and logs nothing when there is
    no text.  A second [_trigger] right after it has nothing to show:
    it changes neither the printer nor the log. *)
Theorem _trigger_prints_printable_sorted (tr tr' : Trainer.t) (p : t) (e : env) :
  exists texts,
    _trigger tr p e =
      (Ok tt, (with_dic ∅ p,
               match texts with [] => e | _ => logger INFO (Scalars texts) e end)) /\
    (forall name v, (name, v) ∈ texts <-> _dic p !! name = Some v /\ printable p name) /\
    StronglySorted (fun a b => String.leb a.1 b.1 : Prop) texts /\
    NoDup texts.*1 /\
    (forall e', _trigger tr' (with_dic ∅ p) e' = (Ok tt, (with_dic ∅ p, e'))).
Proof.
  unfold _trigger.
  set (shown := fun kv : string * float64 =>
         match _whitelist p with
         | None => true
         | Some whitelist => match_regex_list whitelist kv.1
         end && negb (match_regex_list (_blacklist p) kv.1)).
  exists (List.filter shown (sorted_items (_dic p))). split; [done|].
  pose proof (merge_sort_Permutation
                (fun a b : string * float64 => String.leb a.1 b.1 : Prop)
                (map_to_list (_dic p))) as Hperm.
  fold (sorted_items (_dic p)) in Hperm.
  split_and!.
  - intros name v. rewrite list_elem_of_In, filter_In, <- list_elem_of_In.
    rewrite Hperm, elem_of_map_to_list. apply and_iff_compat_l.
    unfold shown, printable. simpl. rewrite andb_true_iff, negb_true_iff.
    assert (Hwhite :
      match _whitelist p with
      | None => true
      | Some whitelist => match_regex_list whitelist name
      end = true <->
      (_whitelist p = None \/
       exists whitelist r, _whitelist p = Some whitelist /\ r ∈ whitelist /\ r name = true)).
    { destruct (_whitelist p) as [whitelist|].
      - rewrite match_regex_list_true. split.
        + intros (r & Hin & Hr). right. by exists whitelist, r.
        + intros [? | (wl & r & [= <-] & Hin & Hr)]; [done | by exists r].
      - split; [by left | done]. }
    assert (Hblack :
      match_regex_list (_blacklist p) name = false <->
      (forall r, r ∈ _blacklist p -> r name = false)).
    { split.
      - intros Hnone r Hin. destruct (r name) eqn:Hr; [|done].
        assert (Hsome : match_regex_list (_blacklist p) name = true)
          by (apply match_regex_list_true; by exists r).
        congruence.
      - intros Hall. destruct (match_regex_list (_blacklist p) name) eqn:Hm; [|done].
        apply match_regex_list_true in Hm as (r & Hin & Hr).
        rewrite (Hall r Hin) in Hr. done. }
    by rewrite Hwhite, Hblack.
  - apply (sorted_sublist _ _ (sorted_items (_dic p))); [apply filter_sublist|].
    apply (StronglySorted_merge_sort _).
  - apply (sublist_NoDup _ (sorted_items (_dic p)).*1).
    + rewrite Hperm. apply NoDup_fst_map_to_list.
    + apply fmap_sublist, filter_sublist.
  - intros e'. simpl. unfold sorted_items. by rewrite map_to_list_empty.
Qed.

End ScalarPrinterFacts.

(** ** Images, hooks and the latest value of a group *)

Module MonitorsFanOut.
Import Monitors.

(** The number of elements of an array of a shape. *)
Definition size_of (shape : list nat) : nat := foldr Nat.mul 1 shape.

Lemma canonical_image_canonical (val : pyval) (a' : ndarray) :
  Monitor.canonical_image val = Ok a' ->
  exists a,
    val = NdArray a /\
    length (shape a') = 4 /\
    data a' = data a /\
    size_of (shape a') = size_of (shape a) /\
    Monitor.canonical_image (NdArray a') = Ok a'.
Proof.
  unfold Monitor.canonical_image. destruct val as [| | |[sh d]]; try done.
  intros Hval. exists {| shape := sh; data := d |}. split; [done|]. simpl in *.
  destruct sh as [|d0 [|d1 [|d2 [|d3 [|d4 sh]]]]]; simpl in *; try done.
  - injection Hval as <-. simpl. split_and!; try done; unfold size_of; simpl; lia.
  - case_bool_decide; injection Hval as <-; simpl;
      (split_and!; try done; unfold size_of; simpl; lia).
  - by injection Hval as <-.
Qed.

(** X17.  What [add_image] hands over is its argument reshaped: an array
    of rank 4 with the same elements in the same order, as many as the
    argument has room for, which [add_image] would hand over unchanged if
    it got it again. *)
Theorem add_image_keeps_the_elements
    {S : Type} `{Monitor.impl S} (name : string) (val : pyval) (tr : Trainer.t)
    (s : S) (e : env) :
  (exists a a',
     val = NdArray a /\
     Monitor.add_image name val tr s e = Monitor._add_image name a' tr s e /\
     length (shape a') = 4 /\
     data a' = data a /\
     size_of (shape a') = size_of (shape a) /\
     Monitor.add_image name (NdArray a') tr s e = Monitor._add_image name a' tr s e) \/
  Monitor.add_image name val tr s e = (Raise AssertionError, (s, e)).
Proof.
  unfold Monitor.add_image.
  destruct (Monitor.canonical_image val) as [a'|x] eqn:Hval.
  - left. destruct (canonical_image_canonical val a' Hval) as (a & -> & ? & ? & ? & Hagain).
    exists a, a'. rewrite Hagain. done.
  - right. f_equal. f_equal. unfold Monitor.canonical_image in Hval.
    destruct val as [| | |a]; try by injection Hval as <-.
    destruct (length (shape _) =? 4) in Hval; [done|]. by injection Hval as <-.
Qed.

Section Members.
Context {S : Type} `{Monitor.impl S}.






(** X20.  [get_latest] returns the value of the last [add_scalar] call for
    the name, as [add_scalar] handed it over, whatever was called before
    that call, whatever hooks, readings and values of other names came
    after it, and whether or not a member raised along the way. *)
Theorem get_latest_returns_the_last_added
    (ms : list S) (e : env) (calls later : list MonitorsFacts.call)
    (tr : Trainer.t) (name : string) (val : pyval) :
  Forall (fun c => forall tr' val', c <> MonitorsFacts.AddScalar tr' name val') later ->
  (get_latest name
     (MonitorsFacts.perform_all (calls ++ MonitorsFacts.AddScalar tr name val :: later)
        (__init__ ms, e)).1).1
  = Ok (MonitorsFacts.handed val).
Proof.
  intros Hlater.
  rewrite MonitorsFacts.get_latest_cached, MonitorsFacts.cached_perform_all.
  rewrite MonitorsFacts.recorded_app. simpl. rewrite bool_decide_eq_true_2 by done.
  rewrite (MonitorsFacts.never_added_recorded _ _ Hlater).
  unfold MonitorsFacts.cached. simpl. rewrite lookup_empty. simpl.
  by rewrite last_snoc.
Qed.

End Members.

(** Two values for one name, then a trigger: the latest value is the
    second. *)
Lemma get_latest_returns_the_last_added_witness :
  (get_latest "loss"
     (MonitorsFacts.perform_all
        ([MonitorsFacts.AddScalar (MonitorsFacts.at_step 1) "loss" (Py (JInt 1))]
         ++ MonitorsFacts.AddScalar (MonitorsFacts.at_step 1) "loss" (NpInteger 2)
            :: [MonitorsFacts.Hook (MonitorsFacts.at_step 1) Monitor.trigger_step])
        (__init__ [tt], MonitorsFacts.env0)).1).1
  = Ok (MonitorsFacts.handed (NpInteger 2)).
Proof.
  apply (get_latest_returns_the_last_added [tt] MonitorsFacts.env0).
  repeat constructor; discriminate.
Defined.

End MonitorsFanOut.

(** ** Runs of the training loop that a hook ends with an exception *)

Module TrainerFailures.
Import Trainer TrainerFacts.

Section AnyHooks.
Context {W : Type}.
Variable hooks : site -> t -> W -> result unit * W.

(** The trace of [train]: the calls of the [try] block, the catch if the
    block raised [StopTraining], and the calls of [after_train]. *)
Lemma train_trace (self0 : t) (df : DataLoader) (n : nat) (ne : Z) (ei : option Z)
    (splits : option (list string)) (w : W) (r : result unit) (σ : run) :
  len df = Ok n ->
  train hooks self0 df ne ei splits w = Some (r, σ) ->
  exists r0 new aft exc,
    block_trace new (raised r0) /\
    after_train_trace aft exc /\
    ((r0 = Raise StopTraining /\
      trace σ = new ++ Caught StopTraining :: aft /\
      r = match exc with None => Ok tt | Some e => Raise e end) \/
     (r0 <> Raise StopTraining /\
      trace σ = new ++ aft /\
      r = match exc with None => r0 | Some e => Raise e end)).
Proof.
  intros Hlen. unfold train. rewrite Hlen.
  match goal with |- context [try_block _ _ _ _ _ ?sm ?s0] =>
    destruct (try_block_returns hooks df n ei sm s0)
      as (r0 & σ1 & Htry & new & Hnew & Hblock)
  end.
  simpl in Htry, Hnew. rewrite Htry. clear Htry. unfold except_finally.
  assert (Hdec : r0 = Raise StopTraining \/ r0 <> Raise StopTraining).
  { destruct r0 as [[]|e]; [by right|].
    destruct (decide (e = StopTraining)) as [->|]; [by left | right; congruence]. }
  destruct Hdec as [-> | Hother].
  - destruct (after_train hooks (log_caught StopTraining σ1)) as [r2 σ2] eqn:Eaft.
    destruct (after_train_events hooks _ _ _ Eaft) as (aft & Haft & Hshape).
    simpl in Haft. rewrite Hnew in Haft. intros Hrun.
    exists (Raise StopTraining), new, aft, (raised r2). split; [done|]. split; [done|].
    left. split; [done|].
    destruct r2 as [[]|e]; injection Hrun as <- <-;
      (split; [by rewrite Haft, <- app_assoc | done]).
  - assert (Hsame : (match r0 with
                     | Raise StopTraining => (Ok tt, log_caught StopTraining σ1)
                     | _ => (r0, σ1)
                     end) = (r0, σ1)).
    { destruct r0 as [[]|[]]; done. }
    rewrite Hsame. clear Hsame.
    destruct (after_train hooks σ1) as [r2 σ2] eqn:Eaft.
    destruct (after_train_events hooks _ _ _ Eaft) as (aft & Haft & Hshape).
    rewrite Hnew in Haft. simpl in Haft. intros Hrun.
    exists r0, new, aft, (raised r2). split; [done|]. split; [done|].
    right. split; [done|].
    destruct r2 as [[]|e]; injection Hrun as <- <-; by split.
Qed.

(** X21.  An exception other than [StopTraining] that a call inside the
    [try] block raises is not caught: nothing follows that call but the
    calls of [after_train] (no further step or epoch), and [train] raises
    that exception, unless [after_train] raises one, which [train] then
    raises in its place. *)
Theorem train_raises_what_a_hook_raised
    (self0 : t) (df : DataLoader) (n : nat) (ne : Z) (ei : option Z)
    (splits : option (list string)) (w : W) (r : result unit) (σ : run)
    (pre post : list event) (s : site) (at_call : t) (x : exn) :
  len df = Ok n ->
  train hooks self0 df ne ei splits w = Some (r, σ) ->
  trace σ = pre ++ Called s at_call (Some x) :: post ->
  guarded s = true ->
  x <> StopTraining ->
  occurrences is_caught (trace σ) = 0 /\
  exists exc,
    after_train_trace post exc /\
    r = Raise (default x exc).
Proof.
  intros Hlen Hrun Htrace Hs Hx.
  destruct (train_trace _ _ _ _ _ _ _ _ _ Hlen Hrun)
    as (r0 & new & aft & exc & Hblock & Hshape & Hcases).
  assert (Hloud : exists e, loud e (Called s at_call (Some x))) by (by exists x, s, at_call).
  assert (Hin : Called s at_call (Some x) ∈ trace σ).
  { rewrite Htrace. apply elem_of_app. right. by left. }
  pose proof (after_train_trace_unguarded _ _ Hshape) as Haft.
  assert (Hnew : Called s at_call (Some x) ∈ new ->
                 exists new', new = new' ++ [Called s at_call (Some x)] /\
                              Forall quiet new' /\ raised r0 = Some x).
  { intros Hmem. destruct Hblock as [Hq | (new' & ev & e & -> & Hq & Hl & He)].
    - apply quiet_not_loud in Hq. rewrite Forall_forall in Hq.
      by destruct (Hq _ Hmem).
    - apply elem_of_app in Hmem as [Hmem | Hmem].
      + apply quiet_not_loud in Hq. rewrite Forall_forall in Hq.
        by destruct (Hq _ Hmem).
      + apply list_elem_of_singleton in Hmem as <-.
        destruct Hl as (s' & t' & [= <- <- <-] & _). by exists new'. }
  destruct Hcases as [(-> & Heq & _) | (Hother & Heq & ->)].
  - exfalso. rewrite Heq in Hin.
    apply elem_of_app in Hin as [Hin | Hin].
    + destruct (Hnew Hin) as (_ & _ & _ & [= <-]). done.
    + apply elem_of_cons in Hin as [[=] | Hin].
      rewrite Forall_forall in Haft. by destruct (Haft _ Hin).
  - rewrite Heq in Hin. apply elem_of_app in Hin as [Hin | Hin];
      [|rewrite Forall_forall in Haft; by destruct (Haft _ Hin)].
    destruct (Hnew Hin) as (new' & -> & Hq & Hr0).
    rewrite Heq, <- app_assoc in Htrace. simpl in Htrace. symmetry in Htrace.
    destruct (split_unique (fun ev => exists e, loud e ev) _ _ _ _ _ _ Htrace)
      as (_ & _ & ->); [done | by apply quiet_not_loud | done |].
    split.
    + rewrite Heq, !occurrences_app, (quiet_not is_caught) by done.
      by rewrite (after_train_trace_not_caught _ _ Hshape).
    + exists exc. split; [done|].
      destruct r0 as [[]|e]; simplify_eq/=. by destruct exc.
Qed.

End AnyHooks.

(** The class [Trainer] itself, with no callbacks: [_run_step] raises
    [NotImplementedError], and every other overridable method is [pass]. *)
Definition base_trainer (s : site) (self : t) (w : unit) : result unit * unit :=
  match s with
  | _run_step => (Raise NotImplementedError, w)
  | _ => (Ok tt, w)
  end.

(** Its run over two batches an epoch. *)
Definition first_step_fails : @run unit :=
  match train base_trainer blank (batches 2) 3 None None tt with
  | Some (_, σ) => σ
  | None => {| self := blank; world := tt; trace := [] |}
  end.

(** A [Trainer] that does not override [_run_step] fails in its first
    step, after [before_step], and [after_train] still runs. *)
Example base_trainer_cannot_run_a_step :
  train base_trainer blank (batches 2) 3 None None tt
    = Some (Raise NotImplementedError, first_step_fails) /\
  epoch_num (self first_step_fails) = 1%Z /\
  global_step (self first_step_fails) = 1%Z /\
  occurrences is_after_train (trace first_step_fails) = 1.
Proof. by vm_compute. Qed.

Lemma train_raises_what_a_hook_raised_witness :
  occurrences is_caught (trace first_step_fails) = 0 /\
  exists exc,
    after_train_trace (drop 9 (trace first_step_fails)) exc /\
    (Raise NotImplementedError : result unit) = Raise (default NotImplementedError exc).
Proof.
  refine (train_raises_what_a_hook_raised base_trainer blank (batches 2) 2 3 None None tt
            (Raise NotImplementedError) first_step_fails
            (take 8 (trace first_step_fails)) (drop 9 (trace first_step_fails))
            _run_step (mk 1 (Some 1%Z) 1 2 3 None) NotImplementedError _ _ _ _ _).
  - reflexivity.
  - vm_compute; reflexivity.
  - vm_compute; reflexivity.
  - reflexivity.
  - discriminate.
Defined.

End TrainerFailures.

(** ** The summaries of a run *)

Module TrainerSummaries.
Import Trainer TrainerRuns.

(** The splits whose summary got its [set_trainer] call, in call order. *)
Definition summaries_set (tr : list event) : list string :=
  omap (fun ev =>
          match ev with
          | Called (summary_set_trainer split) _ _ => Some split
          | _ => None
          end) tr.

Lemma dict_keys_spec (seen splits : list string) :
  NoDup (dict_keys seen splits) /\
  forall s, s ∈ dict_keys seen splits <-> s ∈ splits /\ s ∉ seen.
Proof.
  revert seen. induction splits as [|x splits IH]; intros seen; simpl.
  - split; [constructor|]. intros s. rewrite elem_of_nil. tauto.
  - case_bool_decide as Hx.
    + destruct (IH seen) as [Hnodup Hmem]. split; [done|].
      intros s. rewrite Hmem, elem_of_cons. split; [tauto|].
      intros [[-> | Hs] Hnot]; [done | tauto].
    + destruct (IH (x :: seen)) as [Hnodup Hmem]. split.
      * constructor; [|done]. rewrite Hmem, not_elem_of_cons. tauto.
      * intros s. rewrite elem_of_cons, Hmem, not_elem_of_cons, elem_of_cons.
        destruct (decide (s = x)) as [->|]; tauto.
Qed.

Lemma dict_keys_sublist (seen splits : list string) :
  dict_keys seen splits `sublist_of` splits.
Proof.
  revert seen. induction splits as [|x splits IH]; intros seen; simpl; [done|].
  case_bool_decide; [apply sublist_cons | apply sublist_skip]; apply IH.
Qed.

Lemma summaries_set_app l1 l2 :
  summaries_set (l1 ++ l2) = summaries_set l1 ++ summaries_set l2.
Proof. apply omap_app. Qed.

Lemma summaries_set_steps self k n : summaries_set (steps_schedule self k n) = [].
Proof.
  unfold steps_schedule. generalize 1. induction n as [|n IH]; intros start; [done|].
  cbn [seq flat_map]. by rewrite summaries_set_app, IH.
Qed.

Lemma summaries_set_epoch df n ei self : summaries_set (epoch_schedule df n ei self) = [].
Proof.
  unfold epoch_schedule. rewrite !summaries_set_app, summaries_set_steps.
  unfold before_epoch_sites, end_of_epoch_sites.
  by destruct (distributed_sampler df), (fires ei (epoch_num self + 1)).
Qed.

Lemma summaries_set_epochs df n ei count self :
  summaries_set (epochs_schedule df n ei count self) = [].
Proof.
  revert self. induction count as [|count IH]; intros self; [done|].
  cbn [epochs_schedule]. by rewrite summaries_set_app, summaries_set_epoch, IH.
Qed.

Lemma summaries_set_prologue summary self :
  summaries_set (prologue_schedule summary self) = summary.
Proof.
  unfold prologue_schedule. rewrite summaries_set_app. simpl. rewrite app_nil_r.
  induction summary as [|s summary IH]; simpl; [done | by rewrite IH].
Qed.

Section AllReturn.
Context {W : Type}.
Variable hooks : site -> t -> W -> result unit * W.
Hypothesis hooks_return : forall s t w, (hooks s t w).1 = Ok tt.

(** X22.  [train] makes one summary for each distinct split, however often
    [splits] names it: in a run in which every hook returns, [set_trainer]
    is called on the summary of each split of [splits] exactly once, in an
    order in which [splits] names them, and on no other summary. *)
Theorem train_sets_each_summary_once (self0 : t) (df : DataLoader) (n : nat) (ne : Z)
    (ei : option Z) (splits : list string) (w : W) :
  len df = Ok n ->
  ei <> Some 0%Z ->
  exists σ,
    train hooks self0 df ne ei (Some splits) w = Some (Ok tt, σ) /\
    NoDup (summaries_set (trace σ)) /\
    (forall s, s ∈ summaries_set (trace σ) <-> s ∈ splits) /\
    summaries_set (trace σ) `sublist_of` splits.
Proof.
  intros Hlen Hei.
  destruct (train_schedule_returns hooks hooks_return self0 df n ne ei (Some splits) w
              Hlen Hei) as (σ & E & _ & Ht).
  exists σ. split; [done|]. rewrite Ht. unfold run_schedule.
  rewrite !summaries_set_app, summaries_set_prologue, summaries_set_epochs. simpl.
  rewrite app_nil_r. destruct (dict_keys_spec [] splits) as [Hnodup Hmem].
  split; [done|]. split.
  - intros s. rewrite Hmem, elem_of_nil. tauto.
  - apply dict_keys_sublist.
Qed.

End AllReturn.

(** The split ["train"] is named twice. *)
Lemma train_sets_each_summary_once_witness :
  exists σ,
    train TrainerFacts.counting TrainerFacts.blank (TrainerFacts.batches 1) 1 None
      (Some ["train"; "val"; "train"]) 0 = Some (Ok tt, σ) /\
    NoDup (summaries_set (trace σ)) /\
    (forall s, s ∈ summaries_set (trace σ) <-> s ∈ ["train"; "val"; "train"]) /\
    summaries_set (trace σ) `sublist_of` ["train"; "val"; "train"].
Proof.
  apply (train_sets_each_summary_once TrainerFacts.counting counting_returns
           TrainerFacts.blank (TrainerFacts.batches 1) 1 1 None ["train"; "val"; "train"] 0);
    [reflexivity | discriminate].
Defined.

Example summaries_of_a_repeated_split :
  exists σ,
    train TrainerFacts.counting TrainerFacts.blank (TrainerFacts.batches 1) 1 None
      (Some ["train"; "val"; "train"]) 0 = Some (Ok tt, σ) /\
    summaries_set (trace σ) = ["train"; "val"].
Proof. eexists. split; [vm_compute; reflexivity|]. by vm_compute. Qed.

End TrainerSummaries.
